(** * wp-python: query-parameter helpers, query builder and error classifier

    A shallow embedding of
    - [wp_python/utils/helpers.py]   (enum-or-string normalisation),
    - [wp_python/utils/query.py]     (the fluent [QueryBuilder]),
    - [wp_python/core/exceptions.py] (the exception hierarchy and
      [create_exception_from_response]),
    together with the properties the specification states about them.

    Python integers are unbounded and are modelled by [Z]; Python [str] is
    modelled by [string] (a UTF-8 byte sequence); a [dict] with string keys
    is a [gmap string _]; mutable objects that are shared by reference live
    in an explicit heap. *)

From Stdlib Require Import ZArith String Ascii DecimalString Lia.
From stdpp Require Import gmap strings list fin_maps.

#[local] Set Warnings "-register-all".
#[local] Open Scope Z_scope.
#[local] Arguments String.append : simpl nomatch.

(** ** Python basics *)

Module Py.

(** The built-in exceptions the modelled code can raise. *)
Inductive exn : Type :=
| ValueError (msg : string)
| AttributeError (msg : string)
| TypeError (msg : string)
| KeyError (key : string)
| SystemError (msg : string).

(** The result of evaluating an expression: a value or a raised exception. *)
Inductive outcome (A : Type) : Type :=
| Ok (a : A)
| Raise (e : exn).
Arguments Ok {A} a.
Arguments Raise {A} e.

Definition is_ok {A} (o : outcome A) : bool :=
  match o with Ok _ => true | Raise _ => false end.

(** Sequencing: an exception raised by the first computation propagates. *)
#[export] Instance outcome_ret : MRet outcome := fun A a => Ok a.
#[export] Instance outcome_bind : MBind outcome := fun A B f o =>
  match o with Ok a => f a | Raise e => Raise e end.

(** [str(n)] for an [int]: the decimal numeral, with a leading [-] for
    negative numbers. *)
Definition str_int (z : Z) : string := NilZero.string_of_int (Z.to_int z).

(** [str(b)] for a [bool]. *)
Definition str_bool (b : bool) : string := if b then "True" else "False".

(** [sep.join(parts)]. *)
Definition join (sep : string) (parts : list string) : string :=
  String.concat sep parts.



End Py.

(** ** [core/models.py]: the enumerations *)

Module Models.

(** An [Enum] class: every member has a [name] and carries a [value]; the
    class itself has a name.  All enumerations of the library are
    [str]-valued. *)
Class Enum (E : Type) := {
  class_name : string;
  name : E -> string;
  value : E -> string
}.

Module PostStatus.
Inductive t := PUBLISH | FUTURE | DRAFT | PENDING | PRIVATE | TRASH
             | AUTO_DRAFT | INHERIT.
End PostStatus.

Module CommentStatus.
Inductive t := OPEN | CLOSED.
End CommentStatus.

Module PingStatus.
Inductive t := OPEN | CLOSED.
End PingStatus.

Module PostFormat.
Inductive t := STANDARD | ASIDE | CHAT | GALLERY | LINK | IMAGE | QUOTE
             | STATUS | VIDEO | AUDIO.
End PostFormat.

#[export] Instance PostStatus_enum : Enum PostStatus.t := {|
  class_name := "PostStatus";
  name := fun m =>
    match m with
    | PostStatus.PUBLISH => "PUBLISH"
    | PostStatus.FUTURE => "FUTURE"
    | PostStatus.DRAFT => "DRAFT"
    | PostStatus.PENDING => "PENDING"
    | PostStatus.PRIVATE => "PRIVATE"
    | PostStatus.TRASH => "TRASH"
    | PostStatus.AUTO_DRAFT => "AUTO_DRAFT"
    | PostStatus.INHERIT => "INHERIT"
    end;
  value := fun m =>
    match m with
    | PostStatus.PUBLISH => "publish"
    | PostStatus.FUTURE => "future"
    | PostStatus.DRAFT => "draft"
    | PostStatus.PENDING => "pending"
    | PostStatus.PRIVATE => "private"
    | PostStatus.TRASH => "trash"
    | PostStatus.AUTO_DRAFT => "auto-draft"
    | PostStatus.INHERIT => "inherit"
    end
|}.

#[export] Instance CommentStatus_enum : Enum CommentStatus.t := {|
  class_name := "CommentStatus";
  name := fun m =>
    match m with
    | CommentStatus.OPEN => "OPEN"
    | CommentStatus.CLOSED => "CLOSED"
    end;
  value := fun m =>
    match m with
    | CommentStatus.OPEN => "open"
    | CommentStatus.CLOSED => "closed"
    end
|}.

#[export] Instance PingStatus_enum : Enum PingStatus.t := {|
  class_name := "PingStatus";
  name := fun m =>
    match m with
    | PingStatus.OPEN => "OPEN"
    | PingStatus.CLOSED => "CLOSED"
    end;
  value := fun m =>
    match m with
    | PingStatus.OPEN => "open"
    | PingStatus.CLOSED => "closed"
    end
|}.

#[export] Instance PostFormat_enum : Enum PostFormat.t := {|
  class_name := "PostFormat";
  name := fun m =>
    match m with
    | PostFormat.STANDARD => "STANDARD"
    | PostFormat.ASIDE => "ASIDE"
    | PostFormat.CHAT => "CHAT"
    | PostFormat.GALLERY => "GALLERY"
    | PostFormat.LINK => "LINK"
    | PostFormat.IMAGE => "IMAGE"
    | PostFormat.QUOTE => "QUOTE"
    | PostFormat.STATUS => "STATUS"
    | PostFormat.VIDEO => "VIDEO"
    | PostFormat.AUDIO => "AUDIO"
    end;
  value := fun m =>
    match m with
    | PostFormat.STANDARD => "standard"
    | PostFormat.ASIDE => "aside"
    | PostFormat.CHAT => "chat"
    | PostFormat.GALLERY => "gallery"
    | PostFormat.LINK => "link"
    | PostFormat.IMAGE => "image"
    | PostFormat.QUOTE => "quote"
    | PostFormat.STATUS => "status"
    | PostFormat.VIDEO => "video"
    | PostFormat.AUDIO => "audio"
    end
|}.

(** A member of any of the library's enumerations. *)
Inductive member :=
| OfPostStatus (m : PostStatus.t)
| OfCommentStatus (m : CommentStatus.t)
| OfPingStatus (m : PingStatus.t)
| OfPostFormat (m : PostFormat.t).

(** [str(member)] of an [Enum] member is [ClassName.MEMBER]; the [str]
    mix-in does not change that. *)
Definition str_member {E} `{!Enum E} (m : E) : string :=
  class_name +:+ "." +:+ name m.

Definition member_value (m : member) : string :=
  match m with
  | OfPostStatus m => value m
  | OfCommentStatus m => value m
  | OfPingStatus m => value m
  | OfPostFormat m => value m
  end.

End Models.

(** ** [utils/helpers.py] *)

Module Helpers.
Import Py Models.

(** The values the helpers are handed: a raw [str], an [int], a [bool],
    [None], or a member of an enumeration [E]. *)
Inductive item (E : Type) : Type :=
| IStr (s : string)
| IInt (z : Z)
| IBool (b : bool)
| INone
| IEnum (e : E).
Arguments IStr {E} s.
Arguments IInt {E} z.
Arguments IBool {E} b.
Arguments INone {E}.
Arguments IEnum {E} e.

Section Convert.
Context {E : Type} `{!Enum E}.

(** [hasattr(item, 'value')]: of the values above only enumeration
    members have a [value] attribute. *)
Definition hasattr_value (it : item E) : bool :=
  match it with IEnum _ => true | _ => false end.

(** [item.value]: an [AttributeError] where the attribute is missing. *)
Definition getattr_value (it : item E) : outcome string :=
  match it with
  | IEnum e => Ok (value e)
  | _ => Raise (AttributeError "value")
  end.

(** [str(item)]. *)
Definition str (it : item E) : string :=
  match it with
  | IStr s => s
  | IInt z => str_int z
  | IBool b => str_bool b
  | INone => "None"
  | IEnum e => str_member e
  end.

(** [convert_single_enum_or_string(item)]. *)
Definition convert_single_enum_or_string (it : item E) : outcome string :=
  if hasattr_value it then getattr_value it
  else Ok (str it).

(** [convert_enum_or_string_list(items)]: [result] starts empty and the
    loop appends to it once per element, in iteration order. *)
Definition convert_enum_or_string_list (items : list (item E))
  : outcome (list string) :=
  fold_left
    (fun acc it =>
       result ← acc;
       if hasattr_value it then
         v ← getattr_value it; Ok (result ++ [v])
       else Ok (result ++ [str it]))
    items (Ok []).

(** [build_comma_separated_param(items)]. *)
Definition build_comma_separated_param (items : list (item E))
  : outcome string :=
  strs ← convert_enum_or_string_list items;
  Ok (join "," strs).

(** The specification's [resolveOne], in its own words: the canonical-value
    projection for an enumeration member, the string form for anything
    else.  The theorems below compare the code with it. *)
Definition spec_resolveOne (it : item E) : string :=
  match it with
  | IEnum e => value e
  | IStr s => s
  | other => str other
  end.

End Convert.

(** A keyword argument of the parameter builders: one of the values above
    or a [list] of them. *)
Inductive arg (E : Type) : Type :=
| AScalar (it : item E)
| AList (items : list (item E)).
Arguments AScalar {E} it.
Arguments AList {E} items.

(** One turn of a loop that stores [f value] under [key] for a keyword
    argument [(key, value)], or nothing where [f value] is [None]: the
    shape the loops below are compared with. *)
Definition store_opt {A V : Type} (f : A -> option V)
    (params : gmap string V) (kv : string * A) : gmap string V :=
  match f kv.2 with
  | Some x => <[kv.1 := x]> params
  | None => params
  end.

Section Params.
Context {E : Type} `{!Enum E}.

(** [safe_build_params], called with keyword arguments only.  [kwargs.items()] is the list of the
    keyword arguments in the order they were given; a [str] that is
    stored, whether joined, taken from a member or passed in, is an
    [IStr]. *)
Definition safe_build_params (kwargs : list (string * arg E))
  : outcome (gmap string (item E)) :=
  fold_left
    (fun acc kv =>
       params ← acc;
       let '(key, value) := kv in
       match value with
       | AScalar INone => Ok params
       | AList items =>
           match items with
           | [] => Ok params
           | first :: _ =>
               if hasattr_value first then
                 joined ← build_comma_separated_param items;
                 Ok (<[key := IStr joined]> params)
               else
                 Ok (<[key := IStr (join "," (map str items))]> params)
           end
       | AScalar it =>
           if hasattr_value it then
             v ← getattr_value it; Ok (<[key := IStr v]> params)
           else Ok (<[key := it]> params)
       end)
    kwargs (Ok ∅).

(** What one keyword argument contributes to the result of
    [safe_build_params], if anything: the reference the loop is compared
    with. *)
Definition safe_param (a : arg E) : option (item E) :=
  match a with
  | AScalar INone => None
  | AList [] => None
  | AList (first :: rest) =>
      Some (IStr (join ","
        (map (if hasattr_value first then spec_resolveOne else str)
             (first :: rest))))
  | AScalar (IEnum e) => Some (IStr (value e))
  | AScalar it => Some it
  end.

End Params.

End Helpers.

(** ** [core/exceptions.py] *)

Module Exceptions.
Import Py.

(** A parsed JSON document, as [response.json()] returns it (numbers are
    taken to be integers). *)
Inductive pyval : Type :=
| PNone
| PBool (b : bool)
| PInt (z : Z)
| PStr (s : string)
| PList (l : list pyval)
| PDict (d : gmap string pyval).

(** Truth value of an object in a condition ([if x:], [x or y]). *)
Definition truthy (v : pyval) : bool :=
  match v with
  | PNone => false
  | PBool b => b
  | PInt z => negb (z =? 0)
  | PStr s => negb (String.eqb s "")
  | PList l => match l with [] => false | _ :: _ => true end
  | PDict d => bool_decide (d ≠ ∅)
  end.

(** [a or b]. *)
Definition py_or (a b : pyval) : pyval := if truthy a then a else b.

(** [obj.get(key, dflt)]: only a [dict] has a [get] method. *)
Definition get (obj : pyval) (key : string) (dflt : pyval) : outcome pyval :=
  match obj with
  | PDict d => Ok (default dflt (d !! key))
  | _ => Raise (AttributeError "get")
  end.

(** The exception classes of the module.  [WordPressError] is the base
    class, the other seven derive from it. *)
Inductive error_class : Type :=
| WordPressError
| AuthenticationError
| PermissionError
| NotFoundError
| ValidationError
| RateLimitError
| ServerError
| NetworkError.

(** An instance of [WordPressError] or of one of its subclasses. *)
Record error : Type := {
  cls : error_class;
  message : pyval;
  code : pyval;
  status_code : option Z;
  data : pyval;
  endpoint : option string;
  method : option string
}.

(** [WordPressError.__init__], shared by every subclass: [data] is stored
    as [data or {}], everything else as given. *)
Definition __init__ (c : error_class) (message code : pyval)
    (status_code : option Z) (data : pyval) (endpoint method : option string)
  : error :=
  {| cls := c;
     message := message;
     code := code;
     status_code := status_code;
     data := py_or data (PDict ∅);
     endpoint := endpoint;
     method := method |}.

Section Str.

(** The text [str()] gives for a [list] or a [dict]; its exact form plays
    no role below and is left open. *)
Variable str_container : pyval -> string.

(** [str(v)], as an f-string placeholder formats [v]. *)
Definition str (v : pyval) : string :=
  match v with
  | PNone => "None"
  | PBool b => str_bool b
  | PInt z => str_int z
  | PStr s => s
  | PList _ | PDict _ => str_container v
  end.

(** [WordPressError.__str__].  The final [join] accepts only [str] items:
    the f-string parts always are, the message has to be. *)
Definition __str__ (self : error) : outcome string :=
  let parts := [] in
  let parts :=
    if truthy (code self) then parts ++ ["[" +:+ str (code self) +:+ "]"]
    else parts in
  let parts :=
    match status_code self with
    | Some s => if truthy (PInt s) then parts ++ ["HTTP " +:+ str_int s] else parts
    | None => parts
    end in
  let parts :=
    match method self, endpoint self with
    | Some m, Some e =>
        if truthy (PStr m) && truthy (PStr e) then parts ++ [m +:+ " " +:+ e]
        else parts
    | _, _ => parts
    end in
  match message self with
  | PStr m => Ok (join " " (parts ++ [m]))
  | _ => Raise (TypeError "sequence item: expected str instance")
  end.

End Str.

(** [create_exception_from_response(status_code, response_data)]. *)
Definition create_exception_from_response (status_code : Z)
    (response_data : pyval) : outcome error :=
  message ← get response_data "message" (PStr "未知错误");
  code ← get response_data "code" PNone;
  data ← get response_data "data" (PDict ∅);
  if status_code =? 401 then
    Ok (__init__ AuthenticationError message code (Some status_code) data None None)
  else if status_code =? 403 then
    Ok (__init__ PermissionError message code (Some status_code) data None None)
  else if status_code =? 404 then
    Ok (__init__ NotFoundError message code (Some status_code) data None None)
  else if status_code =? 400 then
    Ok (__init__ ValidationError message code (Some status_code) data None None)
  else if status_code =? 429 then
    Ok (__init__ RateLimitError message code (Some status_code) data None None)
  else if status_code >=? 500 then
    Ok (__init__ ServerError message code (Some status_code) data None None)
  else
    Ok (__init__ WordPressError message code (Some status_code) data None None).

(** [type(self).__name__] *)
Definition __name__ (c : error_class) : string :=
  match c with
  | WordPressError => "WordPressError"
  | AuthenticationError => "AuthenticationError"
  | PermissionError => "PermissionError"
  | NotFoundError => "NotFoundError"
  | ValidationError => "ValidationError"
  | RateLimitError => "RateLimitError"
  | ServerError => "ServerError"
  | NetworkError => "NetworkError"
  end.

(** An [Optional[int]] and an [Optional[str]] as objects. *)
Definition of_optional_int (o : option Z) : pyval :=
  match o with Some z => PInt z | None => PNone end.

Definition of_optional_str (o : option string) : pyval :=
  match o with Some s => PStr s | None => PNone end.

(** [WordPressError.to_dict] *)
Definition to_dict (self : error) : gmap string pyval :=
  <["error_type" := PStr (__name__ (cls self))]>
  (<["message" := message self]>
  (<["code" := code self]>
  (<["status_code" := of_optional_int (status_code self)]>
  (<["endpoint" := of_optional_str (endpoint self)]>
  (<["method" := of_optional_str (method self)]>
  (<["data" := data self]> ∅)))))).

(** A stand-in for the text of containers, to evaluate [__str__] on
    concrete errors whose fields are scalars. *)
Definition any_container_text : pyval -> string := fun _ => "{...}".

End Exceptions.

(** ** [utils/query.py] *)

Module Query.
Import Py Models.

(** *** The object store

    The builder keeps its parameters in a [dict] that it mutates in place,
    [build] hands out copies of it, and list arguments are stored by
    reference.  Objects therefore live in a heap and are named by their
    location. *)

Abbreviation loc := positive.

(** A Python value: an immutable scalar or a reference to a heap object. *)
Inductive value : Type :=
| VNone
| VBool (b : bool)
| VInt (z : Z)
| VStr (s : string)
| VEnum (m : member)
| VDatetime (year month day hour minute second : Z)
| VRef (l : loc).

(** A mutable object: a [dict] with string keys or a [list]. *)
Inductive object : Type :=
| ODict (d : gmap string value)
| OList (items : list value).

Abbreviation heap := (gmap positive object).

(** Computations that read and update the heap and may raise. *)
Definition M (A : Type) : Type := heap -> outcome A * heap.

#[export] Instance M_ret : MRet M := fun A a h => (Ok a, h).
#[export] Instance M_bind : MBind M := fun A B f m h =>
  match m h with
  | (Ok a, h') => f a h'
  | (Raise e, h') => (Raise e, h')
  end.

Definition raise {A} (e : exn) : M A := fun h => (Raise e, h).

(** Creating an object puts it at a location that is not in use. *)
Definition alloc (o : object) : M loc := fun h =>
  let l := fresh (dom h) in (Ok l, <[l := o]> h).

(** Following a reference.  Python has no dangling references; the model
    reports one as a [SystemError]. *)
Definition deref (l : loc) : M object := fun h =>
  match h !! l with
  | Some o => (Ok o, h)
  | None => (Raise (SystemError "dangling reference"), h)
  end.

Definition store (l : loc) (o : object) : M unit := fun h =>
  (Ok tt, <[l := o]> h).

(** The [dict] at a location; item assignment and the [dict] methods are
    a [TypeError] or an [AttributeError] on a [list]. *)
Definition deref_dict (l : loc) (err : exn) : M (gmap string value) :=
  o ← deref l;
  match o with
  | ODict d => mret d
  | OList _ => raise err
  end.

(** [d[key] = v] *)
Definition dict_setitem (l : loc) (key : string) (v : value) : M unit :=
  d ← deref_dict l (TypeError "list indices must be integers");
  store l (ODict (<[key := v]> d)).

(** [d[key]] *)
Definition dict_getitem (l : loc) (key : string) : M value :=
  d ← deref_dict l (TypeError "list indices must be integers");
  match d !! key with
  | Some v => mret v
  | None => raise (KeyError key)
  end.

(** [del d[key]] *)
Definition dict_delitem (l : loc) (key : string) : M unit :=
  d ← deref_dict l (TypeError "list indices must be integers");
  match d !! key with
  | Some _ => store l (ODict (delete key d))
  | None => raise (KeyError key)
  end.

(** [d.clear()] *)
Definition dict_clear (l : loc) : M unit :=
  o ← deref l;
  match o with
  | ODict _ => store l (ODict ∅)
  | OList _ => store l (OList [])
  end.

(** [d.copy()]: a new [dict] with the same keys and the same values
    (references are copied, the objects they point to are not). *)
Definition dict_copy (l : loc) : M loc :=
  o ← deref l;
  match o with
  | ODict d => alloc (ODict d)
  | OList items => alloc (OList items)
  end.

(** [d.update(other)] with the entries of [other] given directly. *)
Definition dict_update (l : loc) (other : gmap string value) : M unit :=
  d ← deref_dict l (AttributeError "update");
  store l (ODict (other ∪ d)).

(** [lst.append(v)] *)
Definition list_append (l : loc) (v : value) : M unit :=
  o ← deref l;
  match o with
  | OList items => store l (OList (items ++ [v]))
  | ODict _ => raise (AttributeError "append")
  end.

(** [v.append(x)] on a value: only a reference to a list has the method. *)
Definition append (v x : value) : M unit :=
  match v with
  | VRef l => list_append l x
  | _ => raise (AttributeError "append")
  end.

(** Truth value of an object in a condition. *)
Definition truthy (v : value) : M bool :=
  match v with
  | VNone => mret false
  | VBool b => mret b
  | VInt z => mret (negb (z =? 0))
  | VStr s => mret (negb (String.eqb s ""))
  | VEnum m => mret (negb (String.eqb (member_value m) ""))
  | VDatetime _ _ _ _ _ _ => mret true
  | VRef l =>
      o ← deref l;
      match o with
      | ODict d => mret (bool_decide (d ≠ ∅))
      | OList items => mret (match items with [] => false | _ :: _ => true end)
      end
  end.

(** [isinstance(v, int)]; [bool] is a subclass of [int]. *)
Definition isinstance_int (v : value) : bool :=
  match v with VInt _ | VBool _ => true | _ => false end.

(** [isinstance(v, str)]; the enumerations derive from [str]. *)
Definition isinstance_str (v : value) : bool :=
  match v with VStr _ | VEnum _ => true | _ => false end.

Definition isinstance_PostStatus (v : value) : bool :=
  match v with VEnum (OfPostStatus _) => true | _ => false end.

Definition isinstance_PostFormat (v : value) : bool :=
  match v with VEnum (OfPostFormat _) => true | _ => false end.

(** *** The builder *)

(** A [QueryBuilder] instance.  Its one attribute, [_params], is bound
    once by the constructor and never rebound, so the instance is
    identified with the location of its parameter [dict]. *)
Record QueryBuilder : Type := { _params : loc }.

(** [QueryBuilder()] *)
Definition __init__ : M QueryBuilder :=
  l ← alloc (ODict ∅);
  mret {| _params := l |}.

Definition page (self : QueryBuilder) (page_num : Z) : M QueryBuilder :=
  if page_num <? 1 then raise (ValueError "页码必须大于0")
  else
    dict_setitem (_params self) "page" (VInt page_num);;
    mret self.

Definition per_page (self : QueryBuilder) (count : Z) : M QueryBuilder :=
  if (count <? 1) || (count >? 100) then
    raise (ValueError "每页数量必须在1-100之间")
  else
    dict_setitem (_params self) "per_page" (VInt count);;
    mret self.

Definition search (self : QueryBuilder) (keyword : string) : M QueryBuilder :=
  (if negb (String.eqb keyword "")
   then dict_setitem (_params self) "search" (VStr keyword)
   else mret tt);;
  mret self.

(** [include] and [exclude] take a list, which is stored as passed. *)
Definition include (self : QueryBuilder) (ids : value) : M QueryBuilder :=
  t ← truthy ids;
  (if t : bool then dict_setitem (_params self) "include" ids else mret tt);;
  mret self.

Definition exclude (self : QueryBuilder) (ids : value) : M QueryBuilder :=
  t ← truthy ids;
  (if t : bool then dict_setitem (_params self) "exclude" ids else mret tt);;
  mret self.

Definition order_by (self : QueryBuilder) (field direction : string)
  : M QueryBuilder :=
  if negb (bool_decide (direction ∈ ["asc"; "desc"])) then
    raise (ValueError "排序方向必须是 'asc' 或 'desc'")
  else
    dict_setitem (_params self) "orderby" (VStr field);;
    dict_setitem (_params self) "order" (VStr direction);;
    mret self.

Definition offset (self : QueryBuilder) (offset_count : Z) : M QueryBuilder :=
  (if offset_count >=? 0
   then dict_setitem (_params self) "offset" (VInt offset_count)
   else mret tt);;
  mret self.

Definition context (self : QueryBuilder) (ctx : string) : M QueryBuilder :=
  (if bool_decide (ctx ∈ ["view"; "embed"; "edit"])
   then dict_setitem (_params self) "context" (VStr ctx)
   else mret tt);;
  mret self.

(** The setters that take one item or a list of them.  A single item is
    wrapped in a new one-element list ([x = [x]]); the list is stored under
    the setter's key unless it is empty. *)
Definition status (self : QueryBuilder) (statuses : value) : M QueryBuilder :=
  statuses ← (if isinstance_PostStatus statuses
     then l ← alloc (OList [statuses]); mret (VRef l)
     else mret statuses);
  t ← truthy statuses;
  (if t : bool then dict_setitem (_params self) "status" statuses else mret tt);;
  mret self.

Definition author (self : QueryBuilder) (author_ids : value) : M QueryBuilder :=
  author_ids ← (if isinstance_int author_ids
     then l ← alloc (OList [author_ids]); mret (VRef l)
     else mret author_ids);
  t ← truthy author_ids;
  (if t : bool then dict_setitem (_params self) "author" author_ids else mret tt);;
  mret self.

Definition author_exclude (self : QueryBuilder) (author_ids : value) : M QueryBuilder :=
  author_ids ← (if isinstance_int author_ids
     then l ← alloc (OList [author_ids]); mret (VRef l)
     else mret author_ids);
  t ← truthy author_ids;
  (if t : bool then dict_setitem (_params self) "author_exclude" author_ids else mret tt);;
  mret self.

Definition categories (self : QueryBuilder) (category_ids : value) : M QueryBuilder :=
  category_ids ← (if isinstance_int category_ids
     then l ← alloc (OList [category_ids]); mret (VRef l)
     else mret category_ids);
  t ← truthy category_ids;
  (if t : bool then dict_setitem (_params self) "categories" category_ids else mret tt);;
  mret self.

Definition categories_exclude (self : QueryBuilder) (category_ids : value) : M QueryBuilder :=
  category_ids ← (if isinstance_int category_ids
     then l ← alloc (OList [category_ids]); mret (VRef l)
     else mret category_ids);
  t ← truthy category_ids;
  (if t : bool then dict_setitem (_params self) "categories_exclude" category_ids else mret tt);;
  mret self.

Definition tags (self : QueryBuilder) (tag_ids : value) : M QueryBuilder :=
  tag_ids ← (if isinstance_int tag_ids
     then l ← alloc (OList [tag_ids]); mret (VRef l)
     else mret tag_ids);
  t ← truthy tag_ids;
  (if t : bool then dict_setitem (_params self) "tags" tag_ids else mret tt);;
  mret self.

Definition tags_exclude (self : QueryBuilder) (tag_ids : value) : M QueryBuilder :=
  tag_ids ← (if isinstance_int tag_ids
     then l ← alloc (OList [tag_ids]); mret (VRef l)
     else mret tag_ids);
  t ← truthy tag_ids;
  (if t : bool then dict_setitem (_params self) "tags_exclude" tag_ids else mret tt);;
  mret self.

Definition slug (self : QueryBuilder) (slugs : value) : M QueryBuilder :=
  slugs ← (if isinstance_str slugs
     then l ← alloc (OList [slugs]); mret (VRef l)
     else mret slugs);
  t ← truthy slugs;
  (if t : bool then dict_setitem (_params self) "slug" slugs else mret tt);;
  mret self.

Definition format (self : QueryBuilder) (formats : value) : M QueryBuilder :=
  formats ← (if isinstance_PostFormat formats
     then l ← alloc (OList [formats]); mret (VRef l)
     else mret formats);
  t ← truthy formats;
  (if t : bool then dict_setitem (_params self) "format" formats else mret tt);;
  mret self.

Definition parent (self : QueryBuilder) (parent_ids : value) : M QueryBuilder :=
  parent_ids ← (if isinstance_int parent_ids
     then l ← alloc (OList [parent_ids]); mret (VRef l)
     else mret parent_ids);
  t ← truthy parent_ids;
  (if t : bool then dict_setitem (_params self) "parent" parent_ids else mret tt);;
  mret self.

Definition parent_exclude (self : QueryBuilder) (parent_ids : value) : M QueryBuilder :=
  parent_ids ← (if isinstance_int parent_ids
     then l ← alloc (OList [parent_ids]); mret (VRef l)
     else mret parent_ids);
  t ← truthy parent_ids;
  (if t : bool then dict_setitem (_params self) "parent_exclude" parent_ids else mret tt);;
  mret self.

(** The shape these eleven setters share, with the test for a single item
    and the key as parameters; the properties below are proved for the
    shape and carried over. *)
Definition set_one_or_list (single : value -> bool) (key : string)
    (self : QueryBuilder) (arg : value) : M QueryBuilder :=
  arg ← (if single arg then l ← alloc (OList [arg]); mret (VRef l)
         else mret arg);
  t ← truthy arg;
  (if t : bool then dict_setitem (_params self) key arg else mret tt);;
  mret self.

(** The date setters, [sticky], [hide_empty] and [custom] store their
    argument unconditionally. *)
Definition after (self : QueryBuilder) (date : value) : M QueryBuilder :=
  dict_setitem (_params self) "after" date;; mret self.

Definition before (self : QueryBuilder) (date : value) : M QueryBuilder :=
  dict_setitem (_params self) "before" date;; mret self.

Definition modified_after (self : QueryBuilder) (date : value) : M QueryBuilder :=
  dict_setitem (_params self) "modified_after" date;; mret self.

Definition modified_before (self : QueryBuilder) (date : value) : M QueryBuilder :=
  dict_setitem (_params self) "modified_before" date;; mret self.

Definition sticky (self : QueryBuilder) (is_sticky : bool) : M QueryBuilder :=
  dict_setitem (_params self) "sticky" (VBool is_sticky);; mret self.

Definition hide_empty (self : QueryBuilder) (hide : bool) : M QueryBuilder :=
  dict_setitem (_params self) "hide_empty" (VBool hide);; mret self.

Definition custom (self : QueryBuilder) (key : string) (v : value)
  : M QueryBuilder :=
  dict_setitem (_params self) key v;; mret self.

(** The setters that accept a single integer or a list of integers, with
    the key each one writes. *)
Definition int_or_list_setters
  : list (string * (QueryBuilder -> value -> M QueryBuilder)) :=
  [("author", author); ("author_exclude", author_exclude);
   ("categories", categories); ("categories_exclude", categories_exclude);
   ("tags", tags); ("tags_exclude", tags_exclude);
   ("parent", parent); ("parent_exclude", parent_exclude)].

(** [build] returns [self._params.copy()]. *)
Definition build (self : QueryBuilder) : M loc :=
  dict_copy (_params self).

Definition reset (self : QueryBuilder) : M QueryBuilder :=
  dict_clear (_params self);; mret self.

Definition create_query : M QueryBuilder := __init__.

(** What a caller can do to a [dict] it holds: the mutating operations of
    the [dict] interface. *)
Inductive dict_mutation : Type :=
| SetItem (key : string) (v : value)
| DelItem (key : string)
| Update (other : gmap string value)
| Clear.

Definition mutate (l : loc) (m : dict_mutation) : M unit :=
  match m with
  | SetItem key v => dict_setitem l key v
  | DelItem key => dict_delitem l key
  | Update other => dict_update l other
  | Clear => dict_clear l
  end.

(** A sequence of mutations; one that raises is abandoned (as under
    [try: ... except: pass]) and the next one is carried out. *)
Fixpoint mutate_all (l : loc) (ms : list dict_mutation) (h : heap) : heap :=
  match ms with
  | [] => h
  | m :: ms' => mutate_all l ms' (snd (mutate l m h))
  end.

(** The heap holds a [dict] with entries [d] at the builder's [_params]. *)
Definition holds (h : heap) (self : QueryBuilder) (d : gmap string value) : Prop :=
  h !! _params self = Some (ODict d).

(** One call of a method of the builder that returns the builder.  The
    arguments a method compares, or uses as a key, have the type the
    method is annotated with; the arguments it only tests and stores are
    any value. *)
Inductive call : Type :=
| Page (page_num : Z)
| PerPage (count : Z)
| Search (keyword : string)
| Include (ids : value)
| Exclude (ids : value)
| OrderBy (field direction : string)
| Offset (offset_count : Z)
| Context (ctx : string)
| Status (statuses : value)
| Author (author_ids : value)
| AuthorExclude (author_ids : value)
| Categories (category_ids : value)
| CategoriesExclude (category_ids : value)
| Tags (tag_ids : value)
| TagsExclude (tag_ids : value)
| After (date : value)
| Before (date : value)
| ModifiedAfter (date : value)
| ModifiedBefore (date : value)
| Slug (slugs : value)
| Sticky (is_sticky : bool)
| Format (formats : value)
| Parent (parent_ids : value)
| ParentExclude (parent_ids : value)
| HideEmpty (hide : bool)
| Custom (key : string) (v : value)
| Reset.

Definition invoke (self : QueryBuilder) (c : call) : M QueryBuilder :=
  match c with
  | Page n => page self n
  | PerPage n => per_page self n
  | Search keyword => search self keyword
  | Include ids => include self ids
  | Exclude ids => exclude self ids
  | OrderBy field direction => order_by self field direction
  | Offset n => offset self n
  | Context ctx => context self ctx
  | Status v => status self v
  | Author v => author self v
  | AuthorExclude v => author_exclude self v
  | Categories v => categories self v
  | CategoriesExclude v => categories_exclude self v
  | Tags v => tags self v
  | TagsExclude v => tags_exclude self v
  | After date => after self date
  | Before date => before self date
  | ModifiedAfter date => modified_after self date
  | ModifiedBefore date => modified_before self date
  | Slug v => slug self v
  | Sticky b => sticky self b
  | Format v => format self v
  | Parent v => parent self v
  | ParentExclude v => parent_exclude self v
  | HideEmpty b => hide_empty self b
  | Custom key v => custom self key v
  | Reset => reset self
  end.

(** A sequence of calls on the same builder; a call that raises is
    abandoned (as under [try: ... except ValueError: pass]) and the next
    one is carried out. *)
Fixpoint invoke_all (self : QueryBuilder) (cs : list call) (h : heap) : heap :=
  match cs with
  | [] => h
  | c :: cs' => invoke_all self cs' (snd (invoke self c h))
  end.

(** The argument whose truth value a call tests, where it tests one. *)
Definition tested_arg (c : call) : option value :=
  match c with
  | Include v | Exclude v | Status v | Author v | AuthorExclude v
  | Categories v | CategoriesExclude v | Tags v | TagsExclude v | Slug v
  | Format v | Parent v | ParentExclude v => Some v
  | _ => None
  end.

(** The references among the arguments that the calls test point to
    objects of the heap, as every reference of a running program does. *)
Definition args_live (h : heap) (cs : list call) : Prop :=
  forall c l, c ∈ cs -> tested_arg c = Some (VRef l) -> is_Some (h !! l).

(** A call that went well: it returned the builder itself, the builder's
    parameters are still a [dict], and every other object is as it was. *)
Definition call_ok (h : heap) (self : QueryBuilder)
    (r : outcome QueryBuilder * heap) : Prop :=
  r.1 = Ok self /\
  (exists d', holds r.2 self d') /\
  (forall l o, l <> _params self -> h !! l = Some o -> r.2 !! l = Some o).

(** The calls that check their argument and may refuse it. *)
Definition validates (c : call) : bool :=
  match c with
  | Page _ | PerPage _ | OrderBy _ _ => true
  | _ => false
  end.

(** The builder that the constructor makes on the empty heap, and the heap
    it leaves. *)
Definition b0 : QueryBuilder := {| _params := 1 |}.
Definition h0 : heap := {[ 1%positive := ODict ∅ ]}.

End Query.

(** ** [core/client.py]: response handling *)

Module Client.
Import Py Exceptions.

(** An HTTP response, as far as [_handle_response] looks at it: the status
    code, the body text, and what [response.json()] gives, [None] standing
    for a [JSONDecodeError]. *)
Module Response.
Record t : Type := {
  status_code : Z;
  text : string;
  json : option pyval
}.
End Response.

(** What a call raises: an instance of the library's exception classes,
    or a built-in exception. *)
Inductive raised : Type :=
| Error (e : error)
| Builtin (e : exn).

Inductive result (A : Type) : Type :=
| Return (a : A)
| Throw (r : raised).
Arguments Return {A} a.
Arguments Throw {A} r.

(** [raise create_exception_from_response(...)]: the exception that
    escapes is the one the call returns, or the one the call raises. *)
Definition raise_from {A} (o : outcome error) : result A :=
  match o with
  | Ok e => Throw (Error e)
  | Raise x => Throw (Builtin x)
  end.

(** [WordPressClient._handle_response]; [AsyncWordPressClient] has the
    same body. *)
Definition _handle_response (response : Response.t) : result pyval :=
  let parsed : result pyval :=
    match Response.json response with
    | Some response_data => Return response_data
    | None =>
        if Response.status_code response >=? 400 then
          Throw (Error (Exceptions.__init__ WordPressError
            (PStr ("HTTP " +:+ str_int (Response.status_code response)
                   +:+ ": " +:+ Response.text response))
            PNone (Some (Response.status_code response)) PNone None None))
        else Return (PDict {[ "message" := PStr (Response.text response) ]})
    end in
  match parsed with
  | Throw r => Throw r
  | Return response_data =>
      if Response.status_code response >=? 400 then
        raise_from (create_exception_from_response
                      (Response.status_code response) response_data)
      else Return response_data
  end.

(** [s.startswith(prefix)] *)
Definition startswith (s prefix : string) : bool := String.prefix prefix s.

(** [s.rstrip(c)] for a single character [c]: [s] without its trailing
    run of [c]. *)
Fixpoint rstrip (c : ascii) (s : string) : string :=
  match s with
  | EmptyString => EmptyString
  | String a s' =>
      match rstrip c s' with
      | EmptyString => if Ascii.eqb a c then EmptyString else String a EmptyString
      | String b r => String a (String b r)
      end
  end.

(** [c * n]: the character [c], [n] times. *)
Fixpoint repeat_char (c : ascii) (n : nat) : string :=
  match n with
  | O => EmptyString
  | S n' => String c (repeat_char c n')
  end.

(** [url.startswith(('http://', 'https://'))] *)
Definition has_scheme (url : string) : bool :=
  startswith url "http://" || startswith url "https://".

(** [WordPressClient._normalize_url] *)
Definition _normalize_url (url : string) : string :=
  let url := if negb (has_scheme url) then "https://" +:+ url else url in
  rstrip "/" url.

End Client.

(** ** [service/posts.py]: parameter building *)

Module Posts.
Import Py Models Helpers.

(** A keyword argument of [_build_list_params]: as for the helpers, or a
    [datetime]. *)
Inductive kwarg (E D : Type) : Type :=
| KScalar (it : item E)
| KList (items : list (item E))
| KDatetime (d : D).
Arguments KScalar {E D} it.
Arguments KList {E D} items.
Arguments KDatetime {E D} d.

(** A keyword argument of the helpers as one of [_build_list_params]. *)
Definition of_arg {E D : Type} (a : arg E) : kwarg E D :=
  match a with
  | AScalar it => KScalar it
  | AList items => KList items
  end.

Section BuildParams.
Context {E D : Type} `{!Enum E}.

(** [datetime.isoformat]; the text it produces plays no role below and is
    left open. *)
Variable isoformat : D -> string.

(** [AsyncPostService._build_list_params], called with keyword arguments only *)
Definition _build_list_params (kwargs : list (string * kwarg E D))
  : outcome (gmap string (item E)) :=
  fold_left
    (fun acc kv =>
       params ← acc;
       let '(key, value) := kv in
       match value with
       | KScalar INone => Ok params
       | KList items =>
           match items with
           | [] => Ok params
           | _ :: _ =>
               joined ← build_comma_separated_param items;
               Ok (<[key := IStr joined]> params)
           end
       | KScalar it =>
           if hasattr_value it then
             v ← getattr_value it; Ok (<[key := IStr v]> params)
           else Ok (<[key := it]> params)
       | KDatetime d => Ok (<[key := IStr (isoformat d)]> params)
       end)
    kwargs (Ok ∅).

(** What one keyword argument contributes to the result of
    [_build_list_params], if anything. *)
Definition list_param (a : kwarg E D) : option (item E) :=
  match a with
  | KScalar INone => None
  | KList [] => None
  | KList items => Some (IStr (join "," (map spec_resolveOne items)))
  | KScalar (IEnum e) => Some (IStr (value e))
  | KScalar it => Some it
  | KDatetime d => Some (IStr (isoformat d))
  end.

End BuildParams.

End Posts.

(** * Properties *)

(** ** The helpers *)

Module HelpersSpec.
Import Py Models Helpers.

Section Convert.
Context {E : Type} `{!Enum E}.

(** The code agrees with the specification's projection on every value. *)
Lemma convert_single_resolve (it : item E) :
  convert_single_enum_or_string it = Ok (spec_resolveOne it).
Proof. destruct it; reflexivity. Qed.

(** Loop invariant of [convert_enum_or_string_list]: after the elements of
    [items] have been visited, [result] has grown by their conversions, in
    order. *)
Lemma convert_loop_invariant (items : list (item E)) (result : list string) :
  fold_left
    (fun acc it =>
       result ← acc;
       if hasattr_value it then
         v ← getattr_value it; Ok (result ++ [v])
       else Ok (result ++ [str it]))
    items (Ok result)
  = Ok (result ++ map spec_resolveOne items).
Proof.
  revert result. induction items as [|it items IH]; intros result; simpl.
  - by rewrite app_nil_r.
  - replace (result ++ spec_resolveOne it :: map spec_resolveOne items)
      with ((result ++ [spec_resolveOne it]) ++ map spec_resolveOne items)
      by (by rewrite <- app_assoc).
    rewrite <- IH. f_equal. destruct it; reflexivity.
Qed.

Lemma convert_list_map (items : list (item E)) :
  convert_enum_or_string_list items = Ok (map spec_resolveOne items).
Proof. unfold convert_enum_or_string_list. by rewrite convert_loop_invariant. Qed.


(** C4: [convert_enum_or_string_list] is the elementwise conversion of its
    argument, of the same length and in the same order, nothing dropped or
    merged; [build_comma_separated_param] is the comma-join of that list,
    the empty string for the empty list and [a,b] for two elements. *)
Theorem convert_list_and_join_spec (L : list (item E)) :
  exists strs : list string,
    convert_enum_or_string_list L = Ok strs /\
    Forall2 (fun it s => convert_single_enum_or_string it = Ok s) L strs /\
    length strs = length L /\
    (forall i : nat,
       strs !! i = (L !! i) ≫= fun it =>
         match convert_single_enum_or_string it with
         | Ok s => Some s
         | Raise _ => None
         end) /\
    build_comma_separated_param L = Ok (join "," strs) /\
    build_comma_separated_param (E:=E) [] = Ok "" /\
    (forall a b : item E, exists sa sb,
       convert_single_enum_or_string a = Ok sa /\
       convert_single_enum_or_string b = Ok sb /\
       build_comma_separated_param [a; b] = Ok (sa +:+ "," +:+ sb)).
Proof.
  exists (map spec_resolveOne L). split; [apply convert_list_map|].
  split.
  { induction L as [|it L IH]; simpl; constructor; auto using convert_single_resolve. }
  split; [by rewrite length_map|].
  split.
  { intros i. rewrite list_lookup_fmap. destruct (L !! i) as [it|]; simpl; [|done].
    by rewrite convert_single_resolve. }
  split.
  { unfold build_comma_separated_param. by rewrite convert_list_map. }
  split; [reflexivity|].
  intros a b. exists (spec_resolveOne a), (spec_resolveOne b).
  rewrite !convert_single_resolve. repeat split.
  unfold build_comma_separated_param. by rewrite convert_list_map.
Qed.

End Convert.

(** The docstring example of [convert_enum_or_string_list]. *)
Example convert_list_doctest :
  convert_enum_or_string_list [IEnum PostStatus.PUBLISH; IStr "draft"]
  = Ok ["publish"; "draft"].
Proof. reflexivity. Qed.

(** The conversion of a member is its value, not its [str()] form. *)
Example convert_member_is_not_str :
  convert_single_enum_or_string (IEnum PostStatus.AUTO_DRAFT) = Ok "auto-draft" /\
  str (IEnum PostStatus.AUTO_DRAFT) = "PostStatus.AUTO_DRAFT".
Proof. split; reflexivity. Qed.

(** Duplicates and empty strings are kept. *)
Example convert_list_keeps_all :
  build_comma_separated_param
    [IStr "a"; IStr ""; IEnum PostFormat.ASIDE; IStr "a"; IInt (-3)]
  = Ok "a,,aside,a,-3".
Proof. vm_compute. reflexivity. Qed.

End HelpersSpec.

(** ** The exceptions *)

Module ExceptionsSpec.
Import Py Exceptions.

(** *** Strings *)



Lemma append_assoc (a b c : string) : (a +:+ b) +:+ c = a +:+ (b +:+ c).
Proof. induction a as [|x a IH]; simpl; [done|by rewrite IH]. Qed.


Lemma eqb_empty_false (s : string) : s <> "" -> String.eqb s "" = false.
Proof. by destruct s. Qed.

(** *** Classification *)

(** On a mapping the three [get] calls succeed and the constructor is
    reached with the status code deciding the class. *)
Lemma classify_mapping (sc : Z) (body : gmap string pyval) :
  create_exception_from_response sc (PDict body)
  = Ok (Exceptions.__init__
          (if sc =? 401 then AuthenticationError
           else if sc =? 403 then PermissionError
           else if sc =? 404 then NotFoundError
           else if sc =? 400 then ValidationError
           else if sc =? 429 then RateLimitError
           else if sc >=? 500 then ServerError
           else WordPressError)
          (default (PStr "未知错误") (body !! "message"))
          (default PNone (body !! "code"))
          (Some sc)
          (default (PDict ∅) (body !! "data"))
          None None).
Proof.
  unfold create_exception_from_response; simpl.
  repeat case_match; reflexivity.
Qed.

(** On anything else the first [get] raises. *)
Lemma classify_non_mapping (sc : Z) (body : pyval) :
  (forall d, body <> PDict d) ->
  create_exception_from_response sc body = Raise (AttributeError "get").
Proof. intros H. destruct body; try reflexivity. by destruct (H d). Qed.

(** C1, as stated, fails: the stored [data] is not always the [data] of
    the body.  A body whose [data] is the empty list, or [null], gives an
    error whose [data] is the empty mapping. *)
Lemma classify_data_not_verbatim :
  (exists e,
     create_exception_from_response 400 (PDict {[ "data" := PList [] ]}) = Ok e /\
     get (PDict {[ "data" := PList [] ]}) "data" (PDict ∅) = Ok (PList []) /\
     data e = PDict ∅ /\ data e <> PList []) /\
  (exists e,
     create_exception_from_response 500 (PDict {[ "data" := PNone ]}) = Ok e /\
     get (PDict {[ "data" := PNone ]}) "data" (PDict ∅) = Ok PNone /\
     data e = PDict ∅ /\ data e <> PNone).
Proof.
  split; eexists; (split; [reflexivity|]); repeat split; vm_compute; congruence.
Qed.

(** C1, amended: on a mapping body the class is selected by the status
    code alone (401, 403, 404, 400, 429, then [>= 500], otherwise the base
    class), [NetworkError] is never selected, message and code are the
    body's (or their defaults), and [data] is the body's when that is
    truthy and the empty mapping otherwise. *)
Theorem classify_dispatch (sc : Z) (body : gmap string pyval) :
  exists e : error,
    create_exception_from_response sc (PDict body) = Ok e /\
    message e = default (PStr "未知错误") (body !! "message") /\
    code e = default PNone (body !! "code") /\
    status_code e = Some sc /\
    data e = (let d := default (PDict ∅) (body !! "data") in
              if truthy d then d else PDict ∅) /\
    cls e <> NetworkError /\
    (sc = 401 -> cls e = AuthenticationError) /\
    (sc = 403 -> cls e = PermissionError) /\
    (sc = 404 -> cls e = NotFoundError) /\
    (sc = 400 -> cls e = ValidationError) /\
    (sc = 429 -> cls e = RateLimitError) /\
    (sc >= 500 -> cls e = ServerError) /\
    (sc < 500 -> sc ∉ [401; 403; 404; 400; 429] -> cls e = WordPressError).
Proof.
  eexists. split; [apply classify_mapping|]. simpl.
  repeat split; try (intros ->; reflexivity).
  - repeat case_match; discriminate.
  - intros H. repeat case_match; try reflexivity; lia.
  - intros Hlt Hnot. rewrite !not_elem_of_cons in Hnot.
    repeat case_match; try reflexivity; lia.
Qed.

(** The concrete cases of the specification. *)
Lemma classify_dispatch_witness :
  exists e,
    create_exception_from_response 418 (PDict ∅) = Ok e /\
    cls e = WordPressError.
Proof.
  destruct (classify_dispatch 418 ∅) as (e & He & _ & _ & _ & _ & _ & _ & _ & _ & _ & _ & _ & Hgen).
  exists e. split; [exact He|].
  apply Hgen; [lia|]. rewrite !not_elem_of_cons. repeat split; try lia.
  apply not_elem_of_nil.
Defined.

(** C2, as stated, fails: on a body that is not a mapping ([null], a list,
    a string) the classifier raises instead of returning an error. *)
Lemma classify_raises_on_non_mapping :
  create_exception_from_response 500 PNone = Raise (AttributeError "get") /\
  create_exception_from_response 400 (PList []) = Raise (AttributeError "get") /\
  create_exception_from_response 404 (PStr "Not Found") = Raise (AttributeError "get").
Proof. repeat split. Qed.

(** C2, amended: on every status code and every mapping body the
    classifier returns an error and raises nothing; a missing [message]
    gives the non-empty default message, a missing [code] gives [None], a
    missing [data] gives the empty mapping.  On a body that is not a
    mapping it raises [AttributeError]. *)
Theorem classify_total_on_mappings (sc : Z) (body : pyval) :
  (forall d : gmap string pyval, body = PDict d ->
     exists e : error,
       create_exception_from_response sc body = Ok e /\
       (d !! "message" = None ->
        message e = PStr "未知错误" /\ truthy (message e) = true) /\
       (d !! "code" = None -> code e = PNone) /\
       (d !! "data" = None -> data e = PDict ∅)) /\
  ((forall d : gmap string pyval, body <> PDict d) ->
     create_exception_from_response sc body = Raise (AttributeError "get")).
Proof.
  split; [|apply classify_non_mapping].
  intros d ->. eexists. split; [apply classify_mapping|]. simpl.
  split; [intros ->; by split|]. split; intros ->; reflexivity.
Qed.

Lemma classify_total_on_mappings_witness :
  (exists e,
     create_exception_from_response 500 (PDict ∅) = Ok e /\
     message e = PStr "未知错误" /\ code e = PNone /\ data e = PDict ∅) /\
  create_exception_from_response 500 (PInt 7) = Raise (AttributeError "get").
Proof.
  split.
  - destruct (classify_total_on_mappings 500 (PDict ∅)) as [H _].
    destruct (H ∅ eq_refl) as (e & He & Hm & Hc & Hd).
    exists e. split; [exact He|].
    split; [apply Hm, lookup_empty|].
    split; [apply Hc, lookup_empty|apply Hd, lookup_empty].
  - apply (classify_total_on_mappings 500 (PInt 7)). discriminate.
Defined.

(** *** Formatting *)

Section Str.
Variable str_container : pyval -> string.

#[local] Abbreviation __str__ := (__str__ str_container).

(** The test [test_exception_creation]. *)
Example str_test_exception_creation :
  __str__ (Exceptions.__init__ WordPressError (PStr "测试错误") (PStr "test_error")
             (Some 400) (PDict {[ "field" := PStr "value" ]}) None None)
  = Ok "[test_error] HTTP 400 测试错误".
Proof. reflexivity. Qed.

(** A message that is not a string makes [join] fail. *)
Lemma str_message_not_str (e : error) :
  (forall m, message e <> PStr m) -> exists msg, __str__ e = Raise (TypeError msg).
Proof.
  intros H. unfold Exceptions.__str__.
  destruct (message e) eqn:Hm; try (eexists; reflexivity).
  by destruct (H s).
Qed.


End Str.



End ExceptionsSpec.

(** ** The query builder *)

Module QuerySpec.
Import Py Models Query.

(** Unfolding the sequencing of heap computations. *)
Ltac run :=
  repeat progress
    (cbv beta iota zeta
         delta [mbind M_bind mret M_ret raise store deref_dict deref alloc truthy];
     simpl).

(** *** Heap operations *)

Lemma alloc_fresh (o : object) (h : heap) :
  h !! fresh (dom h) = None.
Proof. apply not_elem_of_dom, is_fresh. Qed.

Lemma fresh_ne (h : heap) (l : loc) (o : object) :
  h !! l = Some o -> fresh (dom h) <> l.
Proof. intros Hl Heq. rewrite <- Heq, (alloc_fresh o) in Hl. discriminate. Qed.

Lemma dict_setitem_holds (h : heap) (l : loc) (d : gmap string value)
    (key : string) (v : value) :
  h !! l = Some (ODict d) ->
  dict_setitem l key v h = (Ok tt, <[l := ODict (<[key := v]> d)]> h).
Proof. intros Hl. unfold dict_setitem. run. by rewrite Hl. Qed.

Lemma dict_copy_holds (h : heap) (l : loc) (d : gmap string value) :
  h !! l = Some (ODict d) ->
  dict_copy l h = (Ok (fresh (dom h)), <[fresh (dom h) := ODict d]> h).
Proof. intros Hl. unfold dict_copy. run. by rewrite Hl. Qed.

(** A mutation of the [dict] at [l] touches no other object. *)
Lemma mutate_frame (l l' : loc) (m : dict_mutation) (h : heap) :
  l' <> l -> snd (mutate l m h) !! l' = h !! l'.
Proof.
  intros Hne. destruct m; simpl;
    unfold dict_setitem, dict_delitem, dict_update, dict_clear; run;
    destruct (h !! l) as [[d|items]|] eqn:Hl; simpl; try done;
    try (by rewrite lookup_insert_ne).
  destruct (d !! key); simpl; [by rewrite lookup_insert_ne|done].
Qed.

Lemma mutate_all_frame (l l' : loc) (ms : list dict_mutation) (h : heap) :
  l' <> l -> mutate_all l ms h !! l' = h !! l'.
Proof.
  intros Hne. revert h. induction ms as [|m ms IH]; intros h; simpl; [done|].
  by rewrite IH, mutate_frame.
Qed.

(** *** Validating setters *)

Lemma page_run (h : heap) (self : QueryBuilder) (d : gmap string value) (n : Z) :
  holds h self d ->
  page self n h =
    if n <? 1 then (Raise (ValueError "页码必须大于0"), h)
    else (Ok self, <[_params self := ODict (<["page" := VInt n]> d)]> h).
Proof.
  intros Hd. unfold page. destruct (n <? 1); [done|].
  run. by rewrite (dict_setitem_holds _ _ d).
Qed.

Lemma per_page_run (h : heap) (self : QueryBuilder) (d : gmap string value) (n : Z) :
  holds h self d ->
  per_page self n h =
    if (n <? 1) || (n >? 100) then (Raise (ValueError "每页数量必须在1-100之间"), h)
    else (Ok self, <[_params self := ODict (<["per_page" := VInt n]> d)]> h).
Proof.
  intros Hd. unfold per_page. destruct ((n <? 1) || (n >? 100)); [done|].
  run. by rewrite (dict_setitem_holds _ _ d).
Qed.

Lemma order_by_run (h : heap) (self : QueryBuilder) (d : gmap string value)
    (field direction : string) :
  holds h self d ->
  order_by self field direction h =
    if bool_decide (direction ∈ ["asc"; "desc"]) then
      (Ok self,
       <[_params self :=
           ODict (<["order" := VStr direction]> (<["orderby" := VStr field]> d))]> h)
    else (Raise (ValueError "排序方向必须是 'asc' 或 'desc'"), h).
Proof.
  intros Hd. unfold order_by. destruct (bool_decide _); simpl; [|done].
  run. rewrite (dict_setitem_holds _ _ d) by done. simpl.
  rewrite (dict_setitem_holds _ _ (<["orderby" := VStr field]> d))
    by apply lookup_insert_eq.
  by rewrite insert_insert_eq.
Qed.

Lemma offset_run (h : heap) (self : QueryBuilder) (d : gmap string value) (n : Z) :
  holds h self d ->
  offset self n h =
    if n >=? 0 then (Ok self, <[_params self := ODict (<["offset" := VInt n]> d)]> h)
    else (Ok self, h).
Proof.
  intros Hd. unfold offset. destruct (n >=? 0); [|done].
  run. by rewrite (dict_setitem_holds _ _ d).
Qed.

Lemma context_run (h : heap) (self : QueryBuilder) (d : gmap string value)
    (ctx : string) :
  holds h self d ->
  context self ctx h =
    if bool_decide (ctx ∈ ["view"; "embed"; "edit"]) then
      (Ok self, <[_params self := ODict (<["context" := VStr ctx]> d)]> h)
    else (Ok self, h).
Proof.
  intros Hd. unfold context. destruct (bool_decide _); [|done].
  run. by rewrite (dict_setitem_holds _ _ d).
Qed.

Lemma init_empty : Query.__init__ ∅ = (Ok b0, h0).
Proof. reflexivity. Qed.

Lemma init_holds (h : heap) :
  exists self h',
    Query.__init__ h = (Ok self, h') /\ holds h' self ∅ /\
    h !! _params self = None /\ (forall l, l <> _params self -> h' !! l = h !! l).
Proof.
  eexists _, _. split; [reflexivity|]. simpl. split; [apply lookup_insert_eq|].
  split; [apply (alloc_fresh (ODict ∅))|]. intros l Hl. by rewrite lookup_insert_ne.
Qed.

Lemma holds_h0 : holds h0 b0 ∅.
Proof. reflexivity. Qed.

Lemma in_asc_desc (direction : string) :
  direction ∈ ["asc"; "desc"] <-> direction = "asc" \/ direction = "desc".
Proof. rewrite !elem_of_cons, elem_of_nil. tauto. Qed.

Lemma in_contexts (ctx : string) :
  ctx ∈ ["view"; "embed"; "edit"] <-> ctx = "view" \/ ctx = "embed" \/ ctx = "edit".
Proof. rewrite !elem_of_cons, elem_of_nil. tauto. Qed.

(** C6: [page] raises [ValueError] exactly when its argument is below 1,
    [per_page] exactly when its argument is outside 1..100, [order_by]
    exactly when the direction is neither [asc] nor [desc]; a raising
    call leaves the parameters as they were, a successful call stores the
    value under its key and returns the builder. *)
Theorem setters_validate (h : heap) (self : QueryBuilder) (d : gmap string value) :
  holds h self d ->
  (forall n : Z,
     (n < 1 -> page self n h = (Raise (ValueError "页码必须大于0"), h)) /\
     (1 <= n ->
      page self n h
      = (Ok self, <[_params self := ODict (<["page" := VInt n]> d)]> h)) /\
     (is_ok (fst (page self n h)) = false <-> n < 1)) /\
  (forall n : Z,
     (n < 1 \/ 100 < n ->
      per_page self n h = (Raise (ValueError "每页数量必须在1-100之间"), h)) /\
     (1 <= n <= 100 ->
      per_page self n h
      = (Ok self, <[_params self := ODict (<["per_page" := VInt n]> d)]> h)) /\
     (is_ok (fst (per_page self n h)) = false <-> n < 1 \/ 100 < n)) /\
  (forall field direction : string,
     (direction <> "asc" /\ direction <> "desc" ->
      order_by self field direction h
      = (Raise (ValueError "排序方向必须是 'asc' 或 'desc'"), h)) /\
     (direction = "asc" \/ direction = "desc" ->
      order_by self field direction h
      = (Ok self,
         <[_params self :=
             ODict (<["order" := VStr direction]>
                      (<["orderby" := VStr field]> d))]> h)) /\
     (is_ok (fst (order_by self field direction h)) = false
      <-> direction <> "asc" /\ direction <> "desc")).
Proof.
  intros Hd. repeat apply conj.
  - intros n. rewrite (page_run h self d n Hd).
    destruct (Z.ltb_spec n 1); simpl; repeat split; intros; try done; lia.
  - intros n. rewrite (per_page_run h self d n Hd).
    destruct (Z.ltb_spec n 1); simpl.
    { repeat split; intros; try done; lia. }
    rewrite Z.gtb_ltb. destruct (Z.ltb_spec 100 n); simpl;
      repeat split; intros; try done; lia.
  - intros field direction. rewrite (order_by_run h self d field direction Hd).
    case_bool_decide as Hin; rewrite in_asc_desc in Hin; simpl.
    + repeat split; intros; try done; tauto.
    + repeat split; intros; try done; try tauto.
      all: intros ->; apply Hin; auto.
Qed.

(** The cases of the test [test_query_validation] and its successful
    counterparts. *)
Lemma setters_validate_witness :
  is_ok (fst (page b0 0 h0)) = false /\
  is_ok (fst (per_page b0 0 h0)) = false /\
  is_ok (fst (per_page b0 101 h0)) = false /\
  is_ok (fst (order_by b0 "date" "bogus" h0)) = false /\
  page b0 1 h0 = (Ok b0, <[1%positive := ODict {["page" := VInt 1]}]> h0) /\
  per_page b0 100 h0 = (Ok b0, <[1%positive := ODict {["per_page" := VInt 100]}]> h0) /\
  order_by b0 "date" "asc" h0
  = (Ok b0, <[1%positive := ODict (<["order" := VStr "asc"]>
                                    {["orderby" := VStr "date"]})]> h0).
Proof.
  destruct (setters_validate h0 b0 ∅ holds_h0) as (Hpage & Hper & Hord).
  split; [apply Hpage; lia|].
  split; [apply Hper; lia|].
  split; [apply Hper; lia|].
  split; [apply Hord; split; discriminate|].
  split; [apply Hpage; lia|].
  split; [apply Hper; lia|].
  apply Hord. by left.
Defined.

(** C8: [context] raises on no string; one of [view], [embed], [edit] is
    stored under the key [context], any other string leaves the heap, and
    so the parameters, as they were. *)
Theorem context_silently_ignores (h : heap) (self : QueryBuilder)
    (d : gmap string value) (ctx : string) :
  holds h self d ->
  (ctx = "view" \/ ctx = "embed" \/ ctx = "edit" ->
   context self ctx h
   = (Ok self, <[_params self := ODict (<["context" := VStr ctx]> d)]> h)) /\
  (ctx <> "view" /\ ctx <> "embed" /\ ctx <> "edit" ->
   context self ctx h = (Ok self, h)) /\
  is_ok (fst (context self ctx h)) = true.
Proof.
  intros Hd. rewrite (context_run h self d ctx Hd).
  case_bool_decide as Hin; rewrite in_contexts in Hin; simpl;
    repeat split; intros; try done; tauto.
Qed.

Lemma context_silently_ignores_witness :
  context b0 "edit" h0
  = (Ok b0, <[1%positive := ODict {["context" := VStr "edit"]}]> h0) /\
  context b0 "raw" h0 = (Ok b0, h0).
Proof.
  split.
  - apply (context_silently_ignores h0 b0 ∅ "edit" holds_h0). auto.
  - apply (context_silently_ignores h0 b0 ∅ "raw" holds_h0).
    repeat split; discriminate.
Defined.

(** C10: [offset] raises on no integer; a non-negative one is stored
    under the key [offset], a negative one leaves the heap, and so the
    parameters, as they were. *)
Theorem offset_silently_ignores (h : heap) (self : QueryBuilder)
    (d : gmap string value) (n : Z) :
  holds h self d ->
  (0 <= n ->
   offset self n h
   = (Ok self, <[_params self := ODict (<["offset" := VInt n]> d)]> h)) /\
  (n < 0 -> offset self n h = (Ok self, h)) /\
  is_ok (fst (offset self n h)) = true.
Proof.
  intros Hd. rewrite (offset_run h self d n Hd).
  rewrite Z.geb_leb. destruct (Z.leb_spec 0 n); simpl;
    repeat split; intros; try done; lia.
Qed.

Lemma offset_silently_ignores_witness :
  offset b0 0 h0 = (Ok b0, <[1%positive := ODict {["offset" := VInt 0]}]> h0) /\
  offset b0 (-1) h0 = (Ok b0, h0).
Proof.
  split.
  - apply (offset_silently_ignores h0 b0 ∅ 0 holds_h0). lia.
  - apply (offset_silently_ignores h0 b0 ∅ (-1) holds_h0). lia.
Defined.

(** *** Setters taking one item or a list *)

Section OneOrList.
Variables (single : value -> bool) (key : string).
Variables (h : heap) (self : QueryBuilder) (d : gmap string value).
Hypothesis Hd : holds h self d.

(** A single item is put in a new list, and the reference to that list is
    stored. *)
Lemma set_single (arg : value) :
  single arg = true ->
  set_one_or_list single key self arg h
  = (Ok self,
     <[_params self := ODict (<[key := VRef (fresh (dom h))]> d)]>
       (<[fresh (dom h) := OList [arg]]> h)).
Proof.
  intros Hs. unfold set_one_or_list. rewrite Hs. run.
  rewrite lookup_insert_eq. simpl.
  rewrite (dict_setitem_holds _ _ d); [done|].
  rewrite lookup_insert_ne; [done|]. by apply (fresh_ne h _ (ODict d)).
Qed.

(** An empty list is not stored: nothing changes. *)
Lemma set_empty_list (e : loc) :
  single (VRef e) = false -> h !! e = Some (OList []) ->
  set_one_or_list single key self (VRef e) h = (Ok self, h).
Proof.
  intros Hs He. unfold set_one_or_list. rewrite Hs. run. by rewrite He.
Qed.

(** A list with elements is stored as passed, by reference. *)
Lemma set_nonempty_list (r : loc) (x : value) (xs : list value) :
  single (VRef r) = false -> h !! r = Some (OList (x :: xs)) ->
  set_one_or_list single key self (VRef r) h
  = (Ok self, <[_params self := ODict (<[key := VRef r]> d)]> h).
Proof.
  intros Hs Hr. unfold set_one_or_list. rewrite Hs. run. rewrite Hr. simpl.
  by rewrite (dict_setitem_holds _ _ d).
Qed.

End OneOrList.

Lemma build_run (h : heap) (self : QueryBuilder) (d : gmap string value) :
  holds h self d ->
  build self h = (Ok (fresh (dom h)), <[fresh (dom h) := ODict d]> h).
Proof. apply dict_copy_holds. Qed.

Lemma int_or_list_setters_unfold
    (key : string) (setter : QueryBuilder -> value -> M QueryBuilder) :
  (key, setter) ∈ int_or_list_setters ->
  setter = set_one_or_list isinstance_int key.
Proof.
  unfold int_or_list_setters. rewrite !elem_of_cons, elem_of_nil.
  intros H. repeat (destruct H as [H|H]; [by injection H as -> ->|]). done.
Qed.

(** C7: for [author], [categories], [tags], [parent] and their [_exclude]
    variants, a single integer is stored as a new one-element list, an
    empty list changes nothing and raises nothing, and a list with
    elements is stored as passed; [build] afterwards shows the one-element
    list under the key, or no key where none was set before. *)
Theorem int_or_list_setters_spec
    (key : string) (setter : QueryBuilder -> value -> M QueryBuilder)
    (h : heap) (self : QueryBuilder) (d : gmap string value) :
  (key, setter) ∈ int_or_list_setters ->
  holds h self d ->
  (forall n : Z, exists l : loc,
     h !! l = None /\
     setter self (VInt n) h
     = (Ok self,
        <[_params self := ODict (<[key := VRef l]> d)]>
          (<[l := OList [VInt n]]> h))) /\
  (forall e : loc,
     h !! e = Some (OList []) -> setter self (VRef e) h = (Ok self, h)) /\
  (forall (r : loc) (x : value) (xs : list value),
     h !! r = Some (OList (x :: xs)) ->
     setter self (VRef r) h
     = (Ok self, <[_params self := ODict (<[key := VRef r]> d)]> h)) /\
  (forall n : Z, exists (p l : loc) (h' : heap) (d' : gmap string value),
     (b ← setter self (VInt n); build b) h = (Ok p, h') /\
     h' !! p = Some (ODict d') /\
     d' !! key = Some (VRef l) /\ h' !! l = Some (OList [VInt n])) /\
  (forall e : loc,
     h !! e = Some (OList []) -> d !! key = None ->
     exists (p : loc) (h' : heap) (d' : gmap string value),
       (b ← setter self (VRef e); build b) h = (Ok p, h') /\
       h' !! p = Some (ODict d') /\ d' !! key = None).
Proof.
  intros Hin Hd. rewrite (int_or_list_setters_unfold key setter Hin).
  pose proof (fresh_ne h _ _ Hd) as Hne.
  repeat apply conj.
  - intros n. exists (fresh (dom h)). split; [apply (alloc_fresh (ODict d))|].
    by apply set_single.
  - intros e He. by apply set_empty_list.
  - intros r x xs Hr. by apply (set_nonempty_list _ _ _ _ d Hd r x xs).
  - intros n. eexists _, (fresh (dom h)), _, _.
    cbv beta iota zeta delta [mbind M_bind].
    rewrite (set_single _ _ _ _ d Hd (VInt n) eq_refl).
    rewrite (build_run _ _ (<[key := VRef (fresh (dom h))]> d))
      by apply lookup_insert_eq.
    split; [reflexivity|]. split; [apply lookup_insert_eq|].
    split; [apply lookup_insert_eq|].
    match goal with |- <[_ := _]> ?h2 !! ?l = Some ?o =>
      assert (Hl : h2 !! l = Some o)
        by (rewrite lookup_insert_ne by congruence; apply lookup_insert_eq)
    end.
    rewrite lookup_insert_ne; [exact Hl|]. eapply fresh_ne, Hl.
  - intros e He Hk. eexists _, _, _.
    cbv beta iota zeta delta [mbind M_bind].
    rewrite (set_empty_list _ _ _ _ e eq_refl He).
    rewrite (build_run _ _ d Hd).
    split; [reflexivity|]. split; [apply lookup_insert_eq|done].
Qed.

Lemma categories_is_int_or_list_setter :
  ("categories", categories) ∈ int_or_list_setters.
Proof. unfold int_or_list_setters. rewrite !elem_of_cons. auto. Qed.

(** [builder.categories(7)] and [builder.categories([])] on a new builder. *)
Lemma int_or_list_setters_spec_witness :
  (exists l : loc,
     categories b0 (VInt 7) h0
     = (Ok b0,
        <[1%positive := ODict {["categories" := VRef l]}]>
          (<[l := OList [VInt 7]]> h0))) /\
  categories b0 (VRef 2) (<[2%positive := OList []]> h0)
  = (Ok b0, <[2%positive := OList []]> h0).
Proof.
  split.
  - destruct (int_or_list_setters_spec "categories" categories h0 b0 ∅
                categories_is_int_or_list_setter holds_h0) as (H & _).
    destruct (H 7) as (l & _ & Hl). by exists l.
  - apply (int_or_list_setters_spec "categories" categories
             (<[2%positive := OList []]> h0) b0 ∅
             categories_is_int_or_list_setter); reflexivity.
Defined.

(** The examples of the specification, run from the empty heap. *)
Example categories_empty_list_unset :
  exists p h' d',
    (e ← alloc (OList []); b ← Query.__init__; b ← categories b (VRef e); build b) ∅
    = (Ok p, h') /\
    h' !! p = Some (ODict d') /\ d' !! "categories" = None.
Proof. eexists _, _, _. split; [reflexivity|]. split; reflexivity. Qed.

Example categories_single_promoted :
  exists p l h' d',
    (b ← Query.__init__; b ← categories b (VInt 7); build b) ∅ = (Ok p, h') /\
    h' !! p = Some (ODict d') /\
    d' !! "categories" = Some (VRef l) /\ h' !! l = Some (OList [VInt 7]).
Proof. eexists _, _, _, _. split; [reflexivity|]. repeat split; reflexivity. Qed.

Example chaining_round_trip :
  exists p h',
    (b ← Query.__init__; b ← page b 2; b ← per_page b 5; build b) ∅ = (Ok p, h') /\
    h' !! p = Some (ODict (<["per_page" := VInt 5]> {["page" := VInt 2]})).
Proof. eexists _, _. split; reflexivity. Qed.

Example reset_clears :
  exists p h',
    (b ← Query.__init__; b ← page b 1; b ← reset b; build b) ∅ = (Ok p, h') /\
    h' !! p = Some (ODict ∅).
Proof. eexists _, _. split; reflexivity. Qed.

(** *** [build] *)

(** C5: two calls of [build] in a row return two distinct new [dict]
    objects with the entries of the builder's own [dict]; [build] changes
    no object that existed before, the builder's included; and whatever
    is done afterwards to one of the returned [dict]s (setting, deleting,
    updating, clearing entries) changes neither the builder's [dict] nor
    the other returned one. *)
Theorem build_independent_copies
    (h : heap) (self : QueryBuilder) (d : gmap string value) :
  holds h self d ->
  exists (p1 p2 : loc) (h2 : heap),
    (p1 ← build self; p2 ← build self; mret (p1, p2)) h = (Ok (p1, p2), h2) /\
    p1 <> p2 /\ p1 <> _params self /\ p2 <> _params self /\
    h !! p1 = None /\ h !! p2 = None /\
    h2 !! p1 = Some (ODict d) /\ h2 !! p2 = Some (ODict d) /\
    holds h2 self d /\
    (forall (l : loc) (o : object), h !! l = Some o -> h2 !! l = Some o) /\
    (forall ms : list dict_mutation,
       holds (mutate_all p1 ms h2) self d /\
       mutate_all p1 ms h2 !! p2 = Some (ODict d)) /\
    (forall ms : list dict_mutation,
       holds (mutate_all p2 ms h2) self d /\
       mutate_all p2 ms h2 !! p1 = Some (ODict d)).
Proof.
  intros Hd.
  set (p1 := fresh (dom h)).
  set (h1 := <[p1 := ODict d]> h).
  set (p2 := fresh (dom h1)).
  set (h2 := <[p2 := ODict d]> h1).
  assert (Hp1 : h !! p1 = None) by apply (alloc_fresh (ODict d)).
  assert (Hp2 : h1 !! p2 = None) by apply (alloc_fresh (ODict d)).
  assert (Hh1p1 : h1 !! p1 = Some (ODict d)) by apply lookup_insert_eq.
  assert (H12 : p1 <> p2) by (intros Heq; rewrite <- Heq in Hp2; congruence).
  assert (H1s : p1 <> _params self) by (intros Heq; unfold holds in Hd; congruence).
  assert (Hd1 : holds h1 self d).
  { unfold holds, h1. by rewrite lookup_insert_ne. }
  assert (H2s : p2 <> _params self) by (intros Heq; unfold holds in Hd1; congruence).
  assert (Hd2 : holds h2 self d).
  { unfold holds, h2. by rewrite lookup_insert_ne. }
  assert (Hh2p1 : h2 !! p1 = Some (ODict d)).
  { unfold h2. by rewrite lookup_insert_ne. }
  assert (Hh2p2 : h2 !! p2 = Some (ODict d)) by apply lookup_insert_eq.
  assert (Hhp2 : h !! p2 = None).
  { unfold h1 in Hp2. by rewrite lookup_insert_ne in Hp2. }
  exists p1, p2, h2. repeat apply conj; try done.
  - cbv beta iota zeta delta [mbind M_bind mret M_ret].
    rewrite (build_run h self d Hd). fold p1 h1.
    by rewrite (build_run h1 self d Hd1).
  - intros l o Hl. unfold h2, h1.
    rewrite !lookup_insert_ne; [done| |]; intros Heq; subst l; congruence.
  - intros ms. split; [unfold holds|]; by rewrite mutate_all_frame.
  - intros ms. split; [unfold holds|]; by rewrite mutate_all_frame.
Qed.

(** Two builds after [page(2).per_page(5)], then the second result is
    emptied and the first is given another entry. *)
Lemma build_independent_copies_witness :
  let d := <["per_page" := VInt 5]> {["page" := VInt 2]} : gmap string value in
  let h := <[1%positive := ODict d]> h0 in
  exists (p1 p2 : loc) (h2 : heap),
    (p1 ← build b0; p2 ← build b0; mret (p1, p2)) h = (Ok (p1, p2), h2) /\
    p1 <> p2 /\
    holds (mutate_all p2 [Clear] h2) b0 d /\
    mutate_all p2 [Clear] h2 !! p1 = Some (ODict d) /\
    holds (mutate_all p1 [SetItem "page" (VInt 9)] h2) b0 d.
Proof.
  intros d h.
  destruct (build_independent_copies h b0 d eq_refl)
    as (p1 & p2 & h2 & Hrun & Hne & _ & _ & _ & _ & _ & _ & _ & _ & Hm1 & Hm2).
  exists p1, p2, h2. split; [exact Hrun|]. split; [exact Hne|].
  split; [apply Hm2|]. split; [apply Hm2|apply Hm1].
Defined.

(** C5, as stated, fails for list values.  The copy is one level deep: a
    list stored in the builder is the same object in every [dict] that
    [build] returns.  After [b.categories(1)] and [p = b.build()], the
    builder's [categories] is [[1]]; [p["categories"].append(2)] makes it
    [[1, 2]]. *)
Lemma build_copy_is_shallow :
  exists (b : QueryBuilder) (p l : loc) (h1 h2 : heap),
    (b ← Query.__init__; b ← categories b (VInt 1); p ← build b; mret (b, p)) ∅
    = (Ok (b, p), h1) /\
    p <> _params b /\
    dict_getitem (_params b) "categories" h1 = (Ok (VRef l), h1) /\
    h1 !! l = Some (OList [VInt 1]) /\
    (ids ← dict_getitem p "categories"; append ids (VInt 2)) h1 = (Ok tt, h2) /\
    dict_getitem (_params b) "categories" h2 = (Ok (VRef l), h2) /\
    h2 !! l = Some (OList [VInt 1; VInt 2]).
Proof.
  eexists _, _, _, _, _. split; [vm_compute; reflexivity|].
  split; [discriminate|]. split; [vm_compute; reflexivity|].
  split; [vm_compute; reflexivity|]. split; [vm_compute; reflexivity|].
  split; vm_compute; reflexivity.
Qed.

End QuerySpec.

(** ** More on the exceptions: [to_dict] and the text of classified errors *)

Module ExceptionsMore.
Import Py Exceptions ExceptionsSpec.

(** X1: what [to_dict] reports for a classified response repeats the
    response: the [message], [code] and [data] of a body that has all
    three, with a truthy [data], come back under the same keys, next to
    the status code and the name of the class; [endpoint] and [method]
    are [None]; there is no other key. *)
Theorem to_dict_round_trip (sc : Z) (body : gmap string pyval) (m c d : pyval) :
  body !! "message" = Some m -> body !! "code" = Some c ->
  body !! "data" = Some d -> truthy d = true ->
  exists e : error,
    create_exception_from_response sc (PDict body) = Ok e /\
    (forall k : string, k ∈ ["message"; "code"; "data"] ->
       to_dict e !! k = body !! k) /\
    to_dict e !! "status_code" = Some (PInt sc) /\
    to_dict e !! "error_type" = Some (PStr (__name__ (cls e))) /\
    to_dict e !! "endpoint" = Some PNone /\
    to_dict e !! "method" = Some PNone /\
    dom (to_dict e)
    = list_to_set ["error_type"; "message"; "code"; "status_code";
                   "endpoint"; "method"; "data"].
Proof.
  intros Hm Hc Hd Ht. eexists. split; [apply classify_mapping|].
  unfold to_dict. simpl. rewrite Hm, Hc, Hd. simpl.
  unfold py_or. rewrite Ht.
  repeat split.
  - intros k Hk. rewrite !elem_of_cons, elem_of_nil in Hk.
    destruct Hk as [-> | [-> | [-> | []]]]; by simplify_map_eq.
Qed.

Lemma to_dict_round_trip_witness :
  exists e : error,
    create_exception_from_response 400
      (PDict (<["message" := PStr "bad field"]>
             (<["code" := PStr "rest_invalid_param"]>
             {["data" := PDict {["field" := PStr "title"]}]}))) = Ok e /\
    to_dict e !! "data" = Some (PDict {["field" := PStr "title"]}) /\
    to_dict e !! "error_type" = Some (PStr "ValidationError").
Proof.
  set (body := <["message" := PStr "bad field"]>
               (<["code" := PStr "rest_invalid_param"]>
               {["data" := PDict {["field" := PStr "title"]}]})
               : gmap string pyval).
  assert (Hm : body !! "message" = Some (PStr "bad field"))
    by (vm_compute; reflexivity).
  assert (Hc : body !! "code" = Some (PStr "rest_invalid_param"))
    by (vm_compute; reflexivity).
  assert (Hd : body !! "data" = Some (PDict {["field" := PStr "title"]}))
    by (vm_compute; reflexivity).
  destruct (to_dict_round_trip 400 body _ _ _ Hm Hc Hd eq_refl)
    as (e & He & Hk & _ & Ht & _).
  exists e. split; [exact He|]. split.
  - rewrite (Hk "data") by (rewrite !elem_of_cons; auto). exact Hd.
  - rewrite Ht. rewrite classify_mapping in He. by injection He as <-.
Defined.

Section Str.
Variable str_container : pyval -> string.

#[local] Abbreviation __str__ := (__str__ str_container).
#[local] Abbreviation str := (Exceptions.str str_container).



End Str.


End ExceptionsMore.

(** ** Response handling *)

Module ClientSpec.
Import Py Exceptions ExceptionsSpec Client.

(** X4: [_handle_response] returns exactly when the status is below 400,
    and then it returns the parsed body as it is, or the mapping with the
    body text under [message] when the body is not JSON. *)
Theorem handle_response_returns (r : Response.t) :
  ((exists v, _handle_response r = Return v) <-> Response.status_code r < 400) /\
  (Response.status_code r < 400 ->
   _handle_response r
   = Return (default (PDict {[ "message" := PStr (Response.text r) ]})
               (Response.json r))).
Proof.
  unfold _handle_response.
  destruct (Z.geb_spec (Response.status_code r) 400) as [Hge|Hlt].
  - split; [|lia]. split; [|lia].
    destruct (Response.json r) as [v|]; simpl.
    + destruct (create_exception_from_response _ v); intros [w Hw]; discriminate Hw.
    + intros [w Hw]; discriminate Hw.
  - split.
    + split; [done|]. intros _. destruct (Response.json r); eexists; reflexivity.
    + intros _. by destruct (Response.json r).
Qed.

Lemma handle_response_returns_witness :
  _handle_response
    {| Response.status_code := 200; Response.text := "pong";
       Response.json := None |}
  = Return (PDict {[ "message" := PStr "pong" ]}).
Proof.
  apply (handle_response_returns
           {| Response.status_code := 200; Response.text := "pong";
              Response.json := None |}).
  simpl. lia.
Defined.

(** X5: a failure status with a body that is not JSON raises the base
    class, with the status and the body text in the message, the status
    as status code, no code and empty data; the text of that error shows
    the status twice. *)
Theorem handle_response_not_json (str_container : pyval -> string)
    (r : Response.t) :
  Response.status_code r >= 400 -> Response.json r = None ->
  exists e : error,
    _handle_response r = Throw (Error e) /\
    cls e = WordPressError /\
    message e = PStr ("HTTP " +:+ str_int (Response.status_code r) +:+ ": "
                      +:+ Response.text r) /\
    code e = PNone /\
    Exceptions.status_code e = Some (Response.status_code r) /\
    data e = PDict ∅ /\
    __str__ str_container e
    = Ok ("HTTP " +:+ str_int (Response.status_code r) +:+ " HTTP "
          +:+ str_int (Response.status_code r) +:+ ": " +:+ Response.text r).
Proof.
  intros Hge Hjson. unfold _handle_response. rewrite Hjson.
  destruct (Z.geb_spec (Response.status_code r) 400); [|lia].
  eexists. split; [reflexivity|]. repeat split.
  unfold __str__. simpl.
  replace (Response.status_code r =? 0) with false
    by (symmetry; apply Z.eqb_neq; lia).
  simpl. by rewrite ?append_assoc.
Qed.

Lemma handle_response_not_json_witness :
  exists e : error,
    _handle_response
      {| Response.status_code := 502; Response.text := "Bad Gateway";
         Response.json := None |} = Throw (Error e) /\
    __str__ any_container_text e = Ok "HTTP 502 HTTP 502: Bad Gateway".
Proof.
  destruct (handle_response_not_json any_container_text
              {| Response.status_code := 502; Response.text := "Bad Gateway";
                 Response.json := None |} ltac:(simpl; lia) eq_refl)
    as (e & He & _ & _ & _ & _ & _ & Hs).
  exists e. split; [exact He|]. rewrite Hs. reflexivity.
Defined.

(** X6: a failure status with a JSON mapping raises what the classifier
    returns for it: an error that carries the status, of class
    [ServerError] exactly from 500 on, of the base class exactly for the
    statuses from 400 to 499 other than 400, 401, 403, 404 and 429, and
    never a [NetworkError]. *)
Theorem handle_response_mapping (r : Response.t) (body : gmap string pyval) :
  Response.status_code r >= 400 -> Response.json r = Some (PDict body) ->
  exists e : error,
    _handle_response r = Throw (Error e) /\
    create_exception_from_response (Response.status_code r) (PDict body) = Ok e /\
    Exceptions.status_code e = Some (Response.status_code r) /\
    (cls e = ServerError <-> Response.status_code r >= 500) /\
    (cls e = WordPressError
     <-> Response.status_code r < 500 /\
         Response.status_code r ∉ [400; 401; 403; 404; 429]) /\
    cls e <> NetworkError.
Proof.
  intros Hge Hjson. unfold _handle_response. rewrite Hjson.
  destruct (Z.geb_spec (Response.status_code r) 400); [|lia].
  rewrite classify_mapping. eexists. split; [reflexivity|].
  split; [reflexivity|]. simpl. split; [reflexivity|].
  rewrite !not_elem_of_cons.
  repeat case_match; repeat split; try discriminate; try done; try lia;
    try tauto; try (intros; apply not_elem_of_nil).
Qed.

Lemma handle_response_mapping_witness :
  exists e : error,
    _handle_response
      {| Response.status_code := 503; Response.text := "{}";
         Response.json := Some (PDict ∅) |} = Throw (Error e) /\
    cls e = ServerError.
Proof.
  destruct (handle_response_mapping
              {| Response.status_code := 503; Response.text := "{}";
                 Response.json := Some (PDict ∅) |} ∅
              ltac:(simpl; lia) eq_refl) as (e & He & _ & _ & Hsrv & _).
  exists e. split; [exact He|]. apply Hsrv. simpl. lia.
Defined.

(** X7: a failure status with a JSON body that is not a mapping (a list,
    a string, a number, [null]) raises no library error: the
    [AttributeError] of the classifier escapes. *)
Theorem handle_response_not_mapping (r : Response.t) (v : pyval) :
  Response.status_code r >= 400 -> Response.json r = Some v ->
  (forall d, v <> PDict d) ->
  _handle_response r = Throw (Builtin (AttributeError "get")).
Proof.
  intros Hge Hjson Hv. unfold _handle_response. rewrite Hjson.
  destruct (Z.geb_spec (Response.status_code r) 400); [|lia].
  by rewrite (classify_non_mapping _ v Hv).
Qed.

Lemma handle_response_not_mapping_witness :
  _handle_response
    {| Response.status_code := 500; Response.text := "[]";
       Response.json := Some (PList []) |}
  = Throw (Builtin (AttributeError "get")).
Proof.
  apply (handle_response_not_mapping
           {| Response.status_code := 500; Response.text := "[]";
              Response.json := Some (PList []) |} (PList []));
    [simpl; lia|reflexivity|discriminate].
Defined.

(** *** URL normalisation *)

Lemma prefix_app (p w : string) : String.prefix p (p +:+ w) = true.
Proof.
  induction p as [|a p IH]; simpl; [by destruct w|].
  by destruct (Ascii.ascii_dec a a).
Qed.

Lemma prefix_split (p s : string) :
  String.prefix p s = true -> exists w, s = p +:+ w.
Proof.
  revert s. induction p as [|a p IH]; intros s; simpl.
  - intros _. by exists s.
  - destruct s as [|b s]; simpl; [intros Hp; discriminate Hp|].
    destruct (Ascii.ascii_dec a b) as [->|]; [|intros Hp; discriminate Hp].
    intros Hp. destruct (IH s Hp) as [w ->]. by exists w.
Qed.

Lemma rstrip_app (c : ascii) (s t : string) :
  rstrip c (s +:+ t)
  = match rstrip c t with
    | EmptyString => rstrip c s
    | String _ _ => s +:+ rstrip c t
    end.
Proof.
  induction s as [|a s IH]; simpl.
  - by destruct (rstrip c t).
  - rewrite IH. destruct (rstrip c t) as [|b r]; [done|].
    by destruct s.
Qed.

Lemma rstrip_idem (c : ascii) (s : string) : rstrip c (rstrip c s) = rstrip c s.
Proof.
  induction s as [|a s IH]; simpl; [done|].
  destruct (rstrip c s) as [|b r] eqn:Hr.
  - destruct (Ascii.eqb a c) eqn:Hac; simpl; [done|by rewrite Hac].
  - change (rstrip c (String a (String b r))) with
      (match rstrip c (String b r) with
       | EmptyString => if Ascii.eqb a c then EmptyString else String a EmptyString
       | String b' r' => String a (String b' r')
       end).
    by rewrite IH.
Qed.

Lemma rstrip_length (c : ascii) (s : string) :
  (String.length (rstrip c s) <= String.length s)%nat.
Proof.
  induction s as [|a s IH]; simpl; [done|].
  destruct (rstrip c s) as [|b r]; [destruct (Ascii.eqb a c)|]; simpl in *; lia.
Qed.

Lemma length_app (s t : string) :
  String.length (s +:+ t) = (String.length s + String.length t)%nat.
Proof. induction s as [|a s IH]; simpl; [done|by rewrite IH]. Qed.

(** What [rstrip] returns does not end with the stripped character. *)
Lemma rstrip_no_trailing (c : ascii) (s w : string) :
  rstrip c s <> w +:+ String c EmptyString.
Proof.
  intros Heq. pose proof (rstrip_idem c s) as Hidem.
  rewrite Heq, rstrip_app in Hidem. simpl in Hidem.
  rewrite Ascii.eqb_refl in Hidem.
  pose proof (rstrip_length c w) as Hlen.
  rewrite Hidem, length_app in Hlen. simpl in Hlen. lia.
Qed.

(** A string that does not end with the character is left as it is. *)
Lemma rstrip_id (c : ascii) (s : string) :
  (forall w, s <> w +:+ String c EmptyString) -> rstrip c s = s.
Proof.
  induction s as [|a s IH]; intros Hs; simpl; [done|].
  rewrite IH.
  - destruct s as [|b r]; [|done].
    destruct (Ascii.eqb_spec a c) as [->|]; [|done].
    by destruct (Hs EmptyString).
  - intros w ->. by destruct (Hs (String a w)).
Qed.

Lemma normalize_with_scheme (p w : string) :
  p = "http://" \/ p = "https://" ->
  _normalize_url (p +:+ w) = rstrip "/" (p +:+ w).
Proof.
  intros Hp. unfold _normalize_url, has_scheme, startswith.
  destruct Hp as [-> | ->]; [by rewrite prefix_app|].
  rewrite (prefix_app "https://"). by rewrite orb_true_r.
Qed.

(** Every URL is, after the scheme has been supplied, a scheme followed
    by the rest. *)
Lemma normalize_split (url : string) :
  exists p w, (p = "http://" \/ p = "https://") /\
    _normalize_url url = rstrip "/" (p +:+ w) /\
    (has_scheme url = true -> url = p +:+ w) /\
    (has_scheme url = false -> p = "https://" /\ w = url).
Proof.
  unfold _normalize_url, has_scheme, startswith.
  destruct (String.prefix "http://" url) eqn:H1; simpl.
  { destruct (prefix_split _ _ H1) as [w Hw]. exists "http://", w.
    repeat split; auto; try discriminate. by rewrite Hw. }
  destruct (String.prefix "https://" url) eqn:H2; simpl.
  { destruct (prefix_split _ _ H2) as [w Hw]. exists "https://", w.
    repeat split; auto; try discriminate. by rewrite Hw. }
  exists "https://", url. repeat split; auto; discriminate.
Qed.

(** What is stripped is a run of the character. *)
Lemma rstrip_decompose (c : ascii) (s : string) :
  exists n, s = rstrip c s +:+ repeat_char c n.
Proof.
  induction s as [|a s [n IH]]; simpl; [by exists O|].
  destruct (rstrip c s) as [|b r].
  - simpl in IH. destruct (Ascii.eqb_spec a c) as [->|].
    + exists (S n). simpl. by rewrite <- IH.
    + exists n. simpl. by rewrite <- IH.
  - exists n. simpl. simpl in IH. by rewrite <- IH.
Qed.

Lemma rstrip_repeat (c : ascii) (n : nat) : rstrip c (repeat_char c n) = "".
Proof.
  induction n as [|n IH]; simpl; [done|]. by rewrite IH, Ascii.eqb_refl.
Qed.

(** The decomposition determines the result. *)
Lemma rstrip_unique (c : ascii) (s t : string) (n : nat) :
  s = t +:+ repeat_char c n -> (forall w, t <> w +:+ String c EmptyString) ->
  rstrip c s = t.
Proof.
  intros -> Ht. rewrite rstrip_app, rstrip_repeat. by apply rstrip_id.
Qed.

Lemma no_trailing_fixed (c : ascii) (t : string) :
  rstrip c t = t -> forall w, t <> w +:+ String c EmptyString.
Proof. intros Ht w Hw. apply (rstrip_no_trailing c t w). by rewrite Ht. Qed.

Lemma normalize_rstrip (url : string) :
  _normalize_url url
  = rstrip "/" (if has_scheme url then url else "https://" +:+ url).
Proof. unfold _normalize_url. by destruct (has_scheme url). Qed.

Lemma full_split (url : string) :
  exists p w, (p = "http://" \/ p = "https://") /\
    (if has_scheme url then url else "https://" +:+ url) = p +:+ w.
Proof.
  destruct (normalize_split url) as (p & w & Hp & _ & Hyes & Hno).
  exists p, w. split; [done|].
  destruct (has_scheme url); [by apply Hyes|].
  by destruct (Hno eq_refl) as [-> ->].
Qed.

(** X8: write [full] for the URL with [https://] put in front when it
    has no scheme.  The normalised URL is [full] without its trailing
    slashes: [full] is the result followed by slashes only, the result
    does not end with a slash, and these two facts determine it.  When
    nothing but slashes follows the scheme the result is [http:] or
    [https:]; in every other case it begins with [http://] or [https://]
    and normalising it again changes nothing.  A URL that has a scheme
    and no trailing slash is returned as it is. *)
Theorem normalize_url_shape (url : string) :
  (exists n : nat,
     (if has_scheme url then url else "https://" +:+ url)
     = _normalize_url url +:+ repeat_char "/" n) /\
  (forall w, _normalize_url url <> w +:+ "/") /\
  (forall (t : string) (n : nat),
     (if has_scheme url then url else "https://" +:+ url)
     = t +:+ repeat_char "/" n ->
     (forall w, t <> w +:+ "/") ->
     _normalize_url url = t) /\
  (forall n : nat,
     ((if has_scheme url then url else "https://" +:+ url)
      = "http://" +:+ repeat_char "/" n -> _normalize_url url = "http:") /\
     ((if has_scheme url then url else "https://" +:+ url)
      = "https://" +:+ repeat_char "/" n -> _normalize_url url = "https:")) /\
  ((forall n : nat,
      (if has_scheme url then url else "https://" +:+ url)
      <> "http://" +:+ repeat_char "/" n /\
      (if has_scheme url then url else "https://" +:+ url)
      <> "https://" +:+ repeat_char "/" n) ->
   has_scheme (_normalize_url url) = true /\
   _normalize_url (_normalize_url url) = _normalize_url url) /\
  ((_normalize_url url = "http:" \/ _normalize_url url = "https:") \/
   (has_scheme (_normalize_url url) = true /\
    _normalize_url (_normalize_url url) = _normalize_url url)) /\
  (has_scheme url = true -> (forall w, url <> w +:+ "/") ->
   _normalize_url url = url) /\
  (has_scheme url = false ->
   _normalize_url url = rstrip "/" ("https://" +:+ url)).
Proof.
  pose proof (normalize_rstrip url) as Hn.
  destruct (full_split url) as (p & w & Hp & Hfull).
  assert (Hkeep : forall b r, rstrip "/" w = String b r ->
            has_scheme (_normalize_url url) = true /\
            _normalize_url (_normalize_url url) = _normalize_url url).
  { intros b r Hr. rewrite Hn, Hfull, rstrip_app, Hr, <- Hr. split.
    - unfold has_scheme, startswith.
      destruct Hp as [-> | ->]; [by rewrite prefix_app|].
      rewrite (prefix_app "https://"). by rewrite orb_true_r.
    - rewrite (normalize_with_scheme p _ Hp), rstrip_app, rstrip_idem.
      by rewrite Hr. }
  split; [|split; [|split; [|split; [|split; [|split; [|split]]]]]].
  - rewrite Hn. apply rstrip_decompose.
  - intros w'. rewrite Hn. apply rstrip_no_trailing.
  - intros t n Ht Hend. rewrite Hn. by apply (rstrip_unique _ _ t n).
  - intros n. split; intros Hs; rewrite Hn, Hs, rstrip_app, rstrip_repeat;
      reflexivity.
  - intros Hrest. destruct (rstrip "/" w) as [|b r] eqn:Hr; [|by apply (Hkeep b r)].
    destruct (rstrip_decompose "/" w) as [n Hw]. rewrite Hr in Hw. simpl in Hw.
    destruct (Hrest n) as [H1 H2]. rewrite Hfull, Hw in H1, H2.
    by destruct Hp as [-> | ->].
  - destruct (rstrip "/" w) as [|b r] eqn:Hr; [|right; by apply (Hkeep b r)].
    left. rewrite Hn, Hfull, rstrip_app, Hr.
    destruct Hp as [-> | ->]; [by left|by right].
  - intros Hs Hend. rewrite Hn, Hs. by apply rstrip_id.
  - intros Hs. by rewrite Hn, Hs.
Qed.

(** The cases of the test [test_client_initialization], and a URL with a
    scheme and trailing slashes. *)
Lemma normalize_url_shape_witness :
  _normalize_url "example.com" = "https://example.com" /\
  _normalize_url "https://example.com" = "https://example.com" /\
  _normalize_url "https://example.com//" = "https://example.com" /\
  _normalize_url "http:///" = "http:".
Proof.
  assert (Hend : forall w, "https://example.com" <> w +:+ "/")
    by (by apply no_trailing_fixed).
  split; [|split; [|split]].
  - destruct (normalize_url_shape "example.com") as (_ & _ & _ & _ & _ & _ & _ & H).
    rewrite H by reflexivity. reflexivity.
  - by apply (normalize_url_shape "https://example.com").
  - destruct (normalize_url_shape "https://example.com//") as (_ & _ & H & _).
    by apply (H "https://example.com" 2%nat).
  - destruct (normalize_url_shape "http:///") as (_ & _ & _ & H & _).
    by apply (H 1%nat).
Defined.

End ClientSpec.

(** ** Building request parameters *)

Module ParamsSpec.
Import Py Models Helpers HelpersSpec Posts.

(** *** A loop that stores one entry per keyword argument *)

Section Fold.
Context {A V : Type}.
Variable f : A -> option V.

#[local] Abbreviation store_opt := (store_opt f).

Lemma fold_store_lookup (kwargs : list (string * A)) (acc : gmap string V)
    (k : string) :
  NoDup kwargs.*1 ->
  fold_left store_opt kwargs acc !! k
  = match (list_to_map kwargs : gmap string A) !! k with
    | Some a => match f a with Some x => Some x | None => acc !! k end
    | None => acc !! k
    end.
Proof.
  revert acc. induction kwargs as [|[k' a] kwargs IH]; intros acc Hnd; simpl.
  - by rewrite lookup_empty.
  - inversion Hnd as [|? ? Hnotin Hnd']; subst. rewrite (IH _ Hnd').
    unfold Helpers.store_opt. simpl.
    destruct (decide (k' = k)) as [->|Hne].
    + rewrite lookup_insert_eq.
      rewrite (not_elem_of_list_to_map_1 kwargs k Hnotin).
      destruct (f a); [by rewrite lookup_insert_eq|done].
    + rewrite lookup_insert_ne by done.
      destruct (list_to_map kwargs !! k) as [a'|]; [destruct (f a')|];
        try done; destruct (f a); try done; by rewrite lookup_insert_ne.
Qed.

End Fold.

(** A loop whose every turn succeeds and stores one optional entry is the
    loop of the entries. *)
Lemma fold_outcome_store {A V : Type} (f : A -> option V)
    (step : outcome (gmap string V) -> string * A -> outcome (gmap string V)) :
  (forall params kv, step (Ok params) kv = Ok (store_opt f params kv)) ->
  forall kwargs acc,
    fold_left step kwargs (Ok acc) = Ok (fold_left (store_opt f) kwargs acc).
Proof.
  intros Hstep kwargs. induction kwargs as [|kv kwargs IH]; intros acc; simpl;
    [done|]. by rewrite Hstep, IH.
Qed.

Lemma fold_store_ext {A V : Type} (f g : A -> option V)
    (kwargs : list (string * A)) (acc : gmap string V) :
  (forall k a, (k, a) ∈ kwargs -> f a = g a) ->
  fold_left (store_opt f) kwargs acc = fold_left (store_opt g) kwargs acc.
Proof.
  revert acc. induction kwargs as [|[k a] kwargs IH]; intros acc Hfg; simpl;
    [done|].
  unfold store_opt at 2 4. simpl. rewrite (Hfg k a) by apply list_elem_of_here.
  apply IH. intros k' a' Hin. apply (Hfg k' a'). by apply list_elem_of_further.
Qed.

Section Params.
Context {E : Type} `{!Enum E}.

Lemma safe_build_params_store (kwargs : list (string * arg E)) :
  safe_build_params kwargs = Ok (fold_left (store_opt safe_param) kwargs ∅).
Proof.
  unfold safe_build_params. apply fold_outcome_store.
  intros params [key a]. unfold store_opt. simpl.
  destruct a as [it|items].
  - by destruct it.
  - destruct items as [|first rest]; [done|]. simpl.
    destruct (hasattr_value first) eqn:Hfirst; [|done].
    unfold build_comma_separated_param. by rewrite convert_list_map.
Qed.

(** Without an enumeration member, the canonical string is the [str] form. *)
Lemma resolve_without_members (items : list (item E)) :
  Forall (fun it => hasattr_value it = false) items ->
  map spec_resolveOne items = map str items.
Proof.
  induction 1 as [|it items Hit _ IH]; simpl; [done|].
  rewrite IH. by destruct it.
Qed.

Lemma store_lookup_empty {A V : Type} (f : A -> option V)
    (kwargs : list (string * A)) :
  NoDup kwargs.*1 ->
  forall k a, (k, a) ∈ kwargs ->
    fold_left (store_opt f) kwargs ∅ !! k = f a.
Proof.
  intros Hnd k a Hin. rewrite (fold_store_lookup f kwargs ∅ k Hnd).
  apply (elem_of_list_to_map_1 (M:=gmap string)) in Hin; [|done].
  rewrite Hin, lookup_empty. by destruct (f a).
Qed.




(** X11: a single enumeration member is stored as its value, [None] is
    not stored, and any other single value is stored as it is. *)
Theorem safe_build_params_scalar (kwargs : list (string * arg E))
    (k : string) (it : item E) :
  NoDup kwargs.*1 -> (k, AScalar it) ∈ kwargs ->
  exists params : gmap string (item E),
    safe_build_params kwargs = Ok params /\
    params !! k
    = match it with
      | INone => None
      | IEnum e => Some (IStr (value e))
      | other => Some other
      end.
Proof.
  intros Hnd Hin. eexists. split; [apply safe_build_params_store|].
  rewrite (store_lookup_empty safe_param kwargs Hnd k _ Hin).
  by destruct it.
Qed.

End Params.



Lemma safe_build_params_scalar_witness :
  exists params : gmap string (item PostStatus.t),
    safe_build_params
      [("status", AScalar (IEnum PostStatus.DRAFT)); ("page", AScalar (IInt 2))]
    = Ok params /\
    params !! "status" = Some (IStr "draft").
Proof.
  destruct (safe_build_params_scalar
              [("status", AScalar (IEnum PostStatus.DRAFT));
               ("page", AScalar (IInt 2))]
              "status" (IEnum PostStatus.DRAFT)
              ltac:(compute_done) ltac:(apply list_elem_of_here))
    as (params & Hrun & Hk).
  exists params. split; [exact Hrun|exact Hk].
Defined.

(** *** [_build_list_params] *)

Lemma fold_store_fmap {A B V : Type} (f : B -> option V) (g : A -> B)
    (kwargs : list (string * A)) (acc : gmap string V) :
  fold_left (store_opt f) (prod_map id g <$> kwargs) acc
  = fold_left (store_opt (f ∘ g)) kwargs acc.
Proof.
  revert acc. induction kwargs as [|[k a] kwargs IH]; intros acc; simpl; [done|].
  by rewrite IH.
Qed.

Section BuildParams.
Context {E D : Type} `{!Enum E}.
Variable isoformat : D -> string.

#[local] Abbreviation _build_list_params := (_build_list_params isoformat).
#[local] Abbreviation list_param := (list_param isoformat).

Lemma build_list_params_store (kwargs : list (string * kwarg E D)) :
  _build_list_params kwargs = Ok (fold_left (store_opt list_param) kwargs ∅).
Proof.
  unfold Posts._build_list_params. apply fold_outcome_store.
  intros params [key a]. unfold store_opt. simpl.
  destruct a as [it|items|d]; [by destruct it| |done].
  destruct items as [|first rest]; [done|].
  unfold build_comma_separated_param. by rewrite convert_list_map.
Qed.


Lemma agrees_on_args (kwargs : list (string * arg E)) :
  (forall (k : string) (first : item E) (rest : list (item E)),
     (k, AList (first :: rest)) ∈ kwargs ->
     hasattr_value first = true \/
     Forall (fun it => hasattr_value it = false) (first :: rest)) ->
  _build_list_params (prod_map id of_arg <$> kwargs) = safe_build_params kwargs.
Proof.
  intros Hlists.
  rewrite build_list_params_store, safe_build_params_store, fold_store_fmap.
  f_equal. apply fold_store_ext. intros k a Hin.
  destruct a as [it|[|first rest]]; [by destruct it|done|].
  change ((list_param ∘ of_arg) (AList (first :: rest)))
    with (Some (@IStr E (join "," (map spec_resolveOne (first :: rest))))).
  change (safe_param (AList (first :: rest)))
    with (Some (@IStr E (join ","
            (map (if hasattr_value first then spec_resolveOne else str)
                 (first :: rest))))).
  destruct (Hlists k first rest Hin) as [Hfirst|Hall].
  - by rewrite Hfirst.
  - destruct (hasattr_value first); [done|].
    by rewrite (resolve_without_members _ Hall).
Qed.

(** Keyword arguments without a [datetime] are keyword arguments of the
    helpers. *)
Lemma no_datetime_args (kwargs' : list (string * kwarg E D)) :
  (forall k d, (k, KDatetime d) ∉ kwargs') ->
  exists kwargs : list (string * arg E), kwargs' = prod_map id of_arg <$> kwargs.
Proof.
  induction kwargs' as [|[k a] kwargs' IH]; intros Hno; [by exists []|].
  destruct IH as [kwargs ->].
  { intros k' d Hin. apply (Hno k' d). by apply list_elem_of_further. }
  destruct a as [it|items|d].
  - by exists ((k, AScalar it) :: kwargs).
  - by exists ((k, AList items) :: kwargs).
  - destruct (Hno k d). apply list_elem_of_here.
Qed.

(** X13: take keyword arguments none of which is a [datetime], and whose
    non-empty lists each begin with an enumeration member or hold none.
    Given to [_build_list_params] and to [safe_build_params], they build
    the same parameters.  (A [datetime] is left out: the two functions do
    not treat it alike.) *)
Theorem build_list_params_agrees (kwargs' : list (string * kwarg E D)) :
  (forall (k : string) (d : D), (k, KDatetime d) ∉ kwargs') ->
  (forall (k : string) (first : item E) (rest : list (item E)),
     (k, KList (first :: rest)) ∈ kwargs' ->
     hasattr_value first = true \/
     Forall (fun it => hasattr_value it = false) (first :: rest)) ->
  exists kwargs : list (string * arg E),
    kwargs' = prod_map id of_arg <$> kwargs /\
    _build_list_params kwargs' = safe_build_params kwargs.
Proof.
  intros Hno Hlists. destruct (no_datetime_args kwargs' Hno) as [kwargs ->].
  exists kwargs. split; [done|]. apply agrees_on_args.
  intros k first rest Hin. apply (Hlists k first rest).
  apply list_elem_of_fmap. by exists (k, AList (first :: rest)).
Qed.

End BuildParams.


Lemma build_list_params_agrees_witness :
  exists kwargs : list (string * arg PostStatus.t),
    [("status", KList [IEnum PostStatus.PUBLISH; IStr "draft"]);
     ("search", KScalar (IStr "x"))]
    = prod_map id (of_arg (D:=string)) <$> kwargs /\
    _build_list_params (D:=string) id
      [("status", KList [IEnum PostStatus.PUBLISH; IStr "draft"]);
       ("search", KScalar (IStr "x"))]
    = safe_build_params kwargs.
Proof.
  apply (build_list_params_agrees (D:=string) id
           [("status", KList [IEnum PostStatus.PUBLISH; IStr "draft"]);
            ("search", KScalar (IStr "x"))]).
  - intros k d Hin. rewrite !elem_of_cons, elem_of_nil in Hin.
    destruct Hin as [Hin|[Hin|[]]]; simplify_eq.
  - intros k first rest Hin. rewrite !elem_of_cons, elem_of_nil in Hin.
    destruct Hin as [Hin|[Hin|[]]]; simplify_eq. by left.
Defined.

End ParamsSpec.

(** ** More on the builder: what calls keep and what they share *)

Module BuilderSpec.
Import Py Models Query QuerySpec.

(** *** Every call keeps the builder and every other object *)

Lemma ok_insert (h : heap) (self : QueryBuilder) (d' : gmap string value) :
  call_ok h self (Ok self, <[_params self := ODict d']> h).
Proof.
  split; [done|]. split; [eexists; apply lookup_insert_eq|].
  intros l o Hl Ho. simpl. by rewrite lookup_insert_ne.
Qed.

Lemma ok_same (h : heap) (self : QueryBuilder) (d : gmap string value) :
  holds h self d -> call_ok h self (Ok self, h).
Proof. intros Hd. split; [done|]. split; [by exists d|done]. Qed.

Lemma store_run (h : heap) (self : QueryBuilder) (d : gmap string value)
    (key : string) (v : value) :
  holds h self d ->
  (dict_setitem (_params self) key v;; mret self) h
  = (Ok self, <[_params self := ODict (<[key := v]> d)]> h).
Proof. intros Hd. run. by rewrite (dict_setitem_holds _ _ d). Qed.

(** Testing a value changes nothing and, on a live reference, raises
    nothing. *)
Lemma truthy_run (h : heap) (arg : value) :
  (forall l, arg = VRef l -> is_Some (h !! l)) ->
  exists b : bool, truthy arg h = (Ok b, h).
Proof.
  intros Hlive. destruct arg as [|b|z|s|m|? ? ? ? ? ?|l]; try (eexists; reflexivity).
  destruct (Hlive l eq_refl) as [o Ho]. run. rewrite Ho.
  destruct o; eexists; reflexivity.
Qed.

Lemma set_one_or_list_ok (single : value -> bool) (key : string)
    (h : heap) (self : QueryBuilder) (d : gmap string value) (arg : value) :
  holds h self d ->
  (forall l, arg = VRef l -> is_Some (h !! l)) ->
  call_ok h self (set_one_or_list single key self arg h).
Proof.
  intros Hd Hlive. destruct (single arg) eqn:Hs.
  - rewrite (set_single single key h self d Hd arg Hs).
    split; [done|]. split; [eexists; apply lookup_insert_eq|].
    intros l o Hl Ho. simpl. rewrite lookup_insert_ne by done.
    rewrite lookup_insert_ne; [done|]. by apply (fresh_ne h l o).
  - unfold set_one_or_list. rewrite Hs.
    cbv beta iota zeta delta [mbind M_bind mret M_ret].
    destruct (truthy_run h arg Hlive) as [b ->]. destruct b.
    + rewrite (dict_setitem_holds _ _ d) by done. apply ok_insert.
    + by apply (ok_same h self d).
Qed.

(** [include] and [exclude] are the same shape with no single item. *)
Lemma include_shape (self : QueryBuilder) (ids : value) (h : heap) :
  include self ids h = set_one_or_list (fun _ => false) "include" self ids h /\
  exclude self ids h = set_one_or_list (fun _ => false) "exclude" self ids h.
Proof. split; reflexivity. Qed.

Lemma invoke_cases (h : heap) (self : QueryBuilder) (d : gmap string value)
    (c : call) :
  holds h self d ->
  (forall l, tested_arg c = Some (VRef l) -> is_Some (h !! l)) ->
  call_ok h self (invoke self c h) \/
  (validates c = true /\ exists msg, invoke self c h = (Raise (ValueError msg), h)).
Proof.
  intros Hd Hlive.
  destruct c; simpl in *;
    try (left; apply (set_one_or_list_ok _ _ h self d _ Hd);
         by intros l ->; apply Hlive).
  - rewrite (page_run h self d _ Hd).
    case_match; [right; eauto|left; apply ok_insert].
  - rewrite (per_page_run h self d _ Hd).
    case_match; [right; eauto|left; apply ok_insert].
  - left. unfold search. case_match.
    + rewrite (store_run h self d) by done. apply ok_insert.
    + by apply (ok_same h self d).
  - left. rewrite (proj1 (include_shape self ids h)).
    apply (set_one_or_list_ok _ _ h self d _ Hd). by intros l ->; apply Hlive.
  - left. rewrite (proj2 (include_shape self ids h)).
    apply (set_one_or_list_ok _ _ h self d _ Hd). by intros l ->; apply Hlive.
  - rewrite (order_by_run h self d _ _ Hd).
    case_match; [left; apply ok_insert|right; eauto].
  - left. rewrite (offset_run h self d _ Hd).
    case_match; [apply ok_insert|by apply (ok_same h self d)].
  - left. rewrite (context_run h self d _ Hd).
    case_match; [apply ok_insert|by apply (ok_same h self d)].
  - left. unfold after. rewrite (store_run h self d) by done. apply ok_insert.
  - left. unfold before. rewrite (store_run h self d) by done. apply ok_insert.
  - left. unfold modified_after. rewrite (store_run h self d) by done.
    apply ok_insert.
  - left. unfold modified_before. rewrite (store_run h self d) by done.
    apply ok_insert.
  - left. unfold sticky. rewrite (store_run h self d) by done. apply ok_insert.
  - left. unfold hide_empty. rewrite (store_run h self d) by done.
    apply ok_insert.
  - left. unfold custom. rewrite (store_run h self d) by done. apply ok_insert.
  - left. unfold reset, dict_clear. run. rewrite Hd. apply ok_insert.
Qed.

Lemma call_ok_live (h : heap) (self : QueryBuilder)
    (r : outcome QueryBuilder * heap) (l : loc) :
  call_ok h self r -> is_Some (h !! l) -> is_Some (r.2 !! l).
Proof.
  intros (_ & [d' Hd'] & Hframe) [o Ho].
  destruct (decide (l = _params self)) as [->|Hne]; [by eexists|].
  exists o. by apply Hframe.
Qed.

Lemma invoke_all_cases (cs : list call) (h : heap) (self : QueryBuilder)
    (d : gmap string value) :
  holds h self d -> args_live h cs ->
  (exists d', holds (invoke_all self cs h) self d') /\
  (forall l o, l <> _params self -> h !! l = Some o ->
     invoke_all self cs h !! l = Some o).
Proof.
  revert h d. induction cs as [|c cs IH]; intros h d Hd Hlive; simpl.
  { split; [by exists d|done]. }
  assert (Hc : forall l, tested_arg c = Some (VRef l) -> is_Some (h !! l)).
  { intros l Hl. apply (Hlive c l); [apply list_elem_of_here|done]. }
  destruct (invoke_cases h self d c Hd Hc) as [Hok|(_ & msg & ->)]; simpl.
  - destruct Hok as (Hfst & [d' Hd'] & Hframe).
    destruct (IH _ d' Hd') as [Hholds Hrest].
    + intros c' l Hin Hl.
      apply (call_ok_live h self (invoke self c h) l).
      * split; [done|]. split; [by exists d'|done].
      * apply (Hlive c' l); [by apply list_elem_of_further|done].
    + split; [done|]. intros l o Hl Ho. by apply Hrest, Hframe.
  - apply (IH h d Hd). intros c' l Hin Hl.
    apply (Hlive c' l); [by apply list_elem_of_further|done].
Qed.

Lemma holds_h0_set (d : gmap string value) :
  holds (<[1%positive := ODict d]> h0) b0 d.
Proof. apply lookup_insert_eq. Qed.



(** X15: a mapping returned by [build] keeps its entries through every
    later sequence of calls on the builder, [reset] included, and the
    builder keeps its parameter [dict] throughout. *)
Theorem snapshot_survives_calls (h : heap) (self : QueryBuilder)
    (d : gmap string value) (cs : list call) :
  holds h self d ->
  exists (p : loc) (h1 : heap),
    build self h = (Ok p, h1) /\
    p <> _params self /\
    (args_live h1 cs ->
     invoke_all self cs h1 !! p = Some (ODict d) /\
     exists d', holds (invoke_all self cs h1) self d').
Proof.
  intros Hd. eexists _, _. split; [apply (build_run h self d Hd)|].
  assert (Hne : fresh (dom h) <> _params self) by apply (fresh_ne h _ _ Hd).
  split; [done|]. intros Hlive.
  assert (Hd1 : holds (<[fresh (dom h) := ODict d]> h) self d).
  { unfold holds. by rewrite lookup_insert_ne. }
  destruct (invoke_all_cases cs _ self d Hd1 Hlive) as [Hholds Hframe].
  split; [|done]. apply Hframe; [done|apply lookup_insert_eq].
Qed.

Lemma snapshot_survives_calls_witness :
  exists (p : loc) (h1 : heap),
    build b0 (<[1%positive := ODict {["page" := VInt 2]}]> h0) = (Ok p, h1) /\
    invoke_all b0 [Page 3; Categories (VInt 7); Reset; PerPage 0] h1 !! p
    = Some (ODict {["page" := VInt 2]}).
Proof.
  destruct (snapshot_survives_calls
              (<[1%positive := ODict {["page" := VInt 2]}]> h0) b0
              {["page" := VInt 2]}
              [Page 3; Categories (VInt 7); Reset; PerPage 0]
              (holds_h0_set _))
    as (p & h1 & Hb & _ & Hcs).
  exists p, h1. split; [exact Hb|]. apply Hcs.
  intros c l Hin Hl. rewrite !elem_of_cons, elem_of_nil in Hin.
  destruct Hin as [->|[->|[->|[->|[]]]]]; discriminate Hl.
Defined.

(** X16: from any state, [reset] empties the builder's own [dict] in
    place: [build] after it returns an empty mapping, and no other object
    has changed. *)
Theorem reset_then_build (h : heap) (self : QueryBuilder) (d : gmap string value) :
  holds h self d ->
  exists (p : loc) (h' : heap),
    (b ← reset self; build b) h = (Ok p, h') /\
    h' !! p = Some (ODict ∅) /\
    holds h' self ∅ /\
    h !! p = None /\
    (forall l o, l <> _params self -> h !! l = Some o -> h' !! l = Some o).
Proof.
  intros Hd. eexists _, _.
  cbv beta iota zeta delta [mbind M_bind].
  assert (Hreset : reset self h = (Ok self, <[_params self := ODict ∅]> h)).
  { unfold reset, dict_clear. run. by rewrite Hd. }
  rewrite Hreset.
  rewrite (build_run _ self ∅) by apply lookup_insert_eq.
  rewrite dom_insert_lookup_L by (by eexists).
  assert (Hne : fresh (dom h) <> _params self) by apply (fresh_ne h _ _ Hd).
  split; [reflexivity|]. split; [apply lookup_insert_eq|].
  split. { unfold holds. rewrite lookup_insert_ne by done. apply lookup_insert_eq. }
  split; [apply (alloc_fresh (ODict d))|].
  intros l o Hl Ho. rewrite !lookup_insert_ne; [done|done|].
  by apply (fresh_ne h l o).
Qed.

Lemma reset_then_build_witness :
  exists (p : loc) (h' : heap),
    (b ← reset b0; build b) (<[1%positive := ODict {["page" := VInt 1]}]> h0)
    = (Ok p, h') /\
    h' !! p = Some (ODict ∅).
Proof.
  destruct (reset_then_build (<[1%positive := ODict {["page" := VInt 1]}]> h0)
              b0 {["page" := VInt 1]} (holds_h0_set _))
    as (p & h' & Hrun & Hp & _).
  by exists p, h'.
Defined.

(** *** How calls compose *)

Lemma custom_run (h : heap) (self : QueryBuilder) (d : gmap string value)
    (key : string) (v : value) :
  holds h self d ->
  custom self key v h
  = (Ok self, <[_params self := ODict (<[key := v]> d)]> h).
Proof. intros Hd. unfold custom. by apply store_run. Qed.

Lemma two_stores (h : heap) (self : QueryBuilder) (d : gmap string value)
    (k1 k2 : string) (v1 v2 : value) :
  holds h self d ->
  (b ← custom self k1 v1; custom b k2 v2) h
  = (Ok self, <[_params self := ODict (<[k2 := v2]> (<[k1 := v1]> d))]> h).
Proof.
  intros Hd. cbv beta iota zeta delta [mbind M_bind].
  rewrite (custom_run h self d) by done.
  rewrite (custom_run _ self (<[k1 := v1]> d)) by apply lookup_insert_eq.
  by rewrite insert_insert_eq.
Qed.

(** X17: calls that write different parameters can be made in either
    order, and of two calls that write the same parameter the later one
    decides: so for [custom] with any keys, for [page] and [per_page], and
    for [custom] after [page], which replaces the page by any value
    without the check that [page] makes. *)
Theorem calls_commute_last_wins (h : heap) (self : QueryBuilder)
    (d : gmap string value) :
  holds h self d ->
  (forall (k1 k2 : string) (v1 v2 : value), k1 <> k2 ->
     (b ← custom self k1 v1; custom b k2 v2) h
     = (b ← custom self k2 v2; custom b k1 v1) h) /\
  (forall (k : string) (v1 v2 : value),
     (b ← custom self k v1; custom b k v2) h = custom self k v2 h) /\
  (forall m n : Z, 1 <= m -> 1 <= n <= 100 ->
     (b ← page self m; per_page b n) h = (b ← per_page self n; page b m) h) /\
  (forall m n : Z, 1 <= m -> 1 <= n ->
     (b ← page self m; page b n) h = page self n h) /\
  (forall (m : Z) (v : value), 1 <= m ->
     (b ← page self m; custom b "page" v) h
     = (Ok self, <[_params self := ODict (<["page" := v]> d)]> h)).
Proof.
  intros Hd.
  assert (Hpage : forall (h' : heap) (d' : gmap string value) (m : Z),
            holds h' self d' -> 1 <= m ->
            page self m h' = custom self "page" (VInt m) h').
  { intros h' d' m Hd' Hm. rewrite (page_run h' self d' m Hd'), (custom_run h' self d') by done.
    destruct (Z.ltb_spec m 1); [lia|done]. }
  assert (Hper : forall (h' : heap) (d' : gmap string value) (n : Z),
            holds h' self d' -> 1 <= n <= 100 ->
            per_page self n h' = custom self "per_page" (VInt n) h').
  { intros h' d' n Hd' Hn. rewrite (per_page_run h' self d' n Hd'), (custom_run h' self d') by done.
    destruct (Z.ltb_spec n 1); [lia|]. rewrite Z.gtb_ltb.
    destruct (Z.ltb_spec 100 n); [lia|done]. }
  assert (Hset : forall (k : string) (v : value),
            holds (<[_params self := ODict (<[k := v]> d)]> h) self (<[k := v]> d))
    by (intros; apply lookup_insert_eq).
  repeat apply conj.
  - intros k1 k2 v1 v2 Hne. rewrite !(two_stores h self d) by done.
    by rewrite insert_insert_ne.
  - intros k v1 v2. rewrite (two_stores h self d), (custom_run h self d) by done.
    by rewrite insert_insert_eq.
  - intros m n Hm Hn. cbv beta iota zeta delta [mbind M_bind].
    rewrite (Hpage h d), (Hper h d), !(custom_run h self d) by done.
    rewrite (Hper _ _ n (Hset _ _)), (Hpage _ _ m (Hset _ _)) by done.
    rewrite !(custom_run _ self _ _ _ (Hset _ _)), !insert_insert_eq.
    by rewrite insert_insert_ne.
  - intros m n Hm Hn. cbv beta iota zeta delta [mbind M_bind].
    rewrite !(Hpage h d), !(custom_run h self d) by done.
    rewrite (Hpage _ _ n (Hset _ _)) by done.
    by rewrite (custom_run _ self _ _ _ (Hset _ _)), !insert_insert_eq.
  - intros m v Hm. cbv beta iota zeta delta [mbind M_bind].
    rewrite (Hpage h d), (custom_run h self d) by done.
    by rewrite (custom_run _ self _ _ _ (Hset _ _)), !insert_insert_eq.
Qed.

Lemma calls_commute_last_wins_witness :
  (b ← page b0 2; per_page b 5) h0 = (b ← per_page b0 5; page b 2) h0 /\
  (b ← page b0 1; custom b "page" (VInt 0)) h0
  = (Ok b0, <[1%positive := ODict {["page" := VInt 0]}]> h0).
Proof.
  destruct (calls_commute_last_wins h0 b0 ∅ holds_h0) as (_ & _ & Hpp & _ & Hc).
  split; [apply Hpp; lia|apply Hc; lia].
Defined.

(** *** What is wrapped in a list and what is shared *)

(** X18: [status] and [format] wrap a single member of their own
    enumeration in a new list, but store a non-empty raw string, or a
    member of any other enumeration ([status] a [PostFormat] member,
    [format] a [PostStatus] member, either a [CommentStatus] or
    [PingStatus] member), as it is, not as a list; [slug] wraps every
    string, the empty one too. *)
Theorem single_item_promotion (h : heap) (self : QueryBuilder)
    (d : gmap string value) :
  holds h self d ->
  (forall m : PostStatus.t,
     status self (VEnum (OfPostStatus m)) h
     = (Ok self,
        <[_params self := ODict (<["status" := VRef (fresh (dom h))]> d)]>
          (<[fresh (dom h) := OList [VEnum (OfPostStatus m)]]> h))) /\
  (forall f : PostFormat.t,
     format self (VEnum (OfPostFormat f)) h
     = (Ok self,
        <[_params self := ODict (<["format" := VRef (fresh (dom h))]> d)]>
          (<[fresh (dom h) := OList [VEnum (OfPostFormat f)]]> h))) /\
  (forall s : string, s <> "" ->
     status self (VStr s) h
     = (Ok self, <[_params self := ODict (<["status" := VStr s]> d)]> h) /\
     format self (VStr s) h
     = (Ok self, <[_params self := ODict (<["format" := VStr s]> d)]> h)) /\
  (forall f : PostFormat.t,
     status self (VEnum (OfPostFormat f)) h
     = (Ok self,
        <[_params self := ODict (<["status" := VEnum (OfPostFormat f)]> d)]> h)) /\
  (forall m : PostStatus.t,
     format self (VEnum (OfPostStatus m)) h
     = (Ok self,
        <[_params self := ODict (<["format" := VEnum (OfPostStatus m)]> d)]> h)) /\
  (forall m : member,
     (isinstance_PostStatus (VEnum m) = false ->
      status self (VEnum m) h
      = (Ok self, <[_params self := ODict (<["status" := VEnum m]> d)]> h)) /\
     (isinstance_PostFormat (VEnum m) = false ->
      format self (VEnum m) h
      = (Ok self, <[_params self := ODict (<["format" := VEnum m]> d)]> h))) /\
  (forall s : string,
     slug self (VStr s) h
     = (Ok self,
        <[_params self := ODict (<["slug" := VRef (fresh (dom h))]> d)]>
          (<[fresh (dom h) := OList [VStr s]]> h))).
Proof.
  intros Hd. repeat apply conj.
  - intros m. by apply (set_single isinstance_PostStatus "status" h self d Hd).
  - intros f. by apply (set_single isinstance_PostFormat "format" h self d Hd).
  - intros s Hs. split.
    + unfold status. run. rewrite (ExceptionsSpec.eqb_empty_false s Hs). simpl.
      by rewrite (dict_setitem_holds _ _ d).
    + unfold format. run. rewrite (ExceptionsSpec.eqb_empty_false s Hs). simpl.
      by rewrite (dict_setitem_holds _ _ d).
  - intros f. unfold status. run.
    destruct f; simpl; by rewrite (dict_setitem_holds _ _ d).
  - intros m. unfold format. run.
    destruct m; simpl; by rewrite (dict_setitem_holds _ _ d).
  - intros m. split; intros Hm.
    + unfold status. rewrite Hm. run.
      destruct m as [[]|[]|[]|[]]; simpl; by rewrite (dict_setitem_holds _ _ d).
    + unfold format. rewrite Hm. run.
      destruct m as [[]|[]|[]|[]]; simpl; by rewrite (dict_setitem_holds _ _ d).
  - intros s. by apply (set_single isinstance_str "slug" h self d Hd).
Qed.

Lemma single_item_promotion_witness :
  status b0 (VStr "publish") h0
  = (Ok b0, <[1%positive := ODict {["status" := VStr "publish"]}]> h0) /\
  slug b0 (VStr "") h0
  = (Ok b0,
     <[1%positive := ODict {["slug" := VRef (fresh (dom h0))]}]>
       (<[fresh (dom h0) := OList [VStr ""]]> h0)).
Proof.
  destruct (single_item_promotion h0 b0 ∅ holds_h0)
    as (_ & _ & Hstr & _ & _ & _ & Hslug).
  split; [apply Hstr; discriminate|apply Hslug].
Defined.

(** X19: [include] stores the list it is given, not a copy: an empty list
    changes nothing, and after a list with elements has been passed,
    appending to that list changes what the builder holds and what
    [build] then returns under [include]. *)
Theorem include_stores_reference (h : heap) (self : QueryBuilder)
    (d : gmap string value) (r : loc) (items : list value) (y : value) :
  holds h self d -> h !! r = Some (OList items) ->
  (items = [] -> include self (VRef r) h = (Ok self, h)) /\
  (items <> [] ->
   exists (p : loc) (h' : heap) (d' : gmap string value),
     (b ← include self (VRef r); list_append r y;; build b) h = (Ok p, h') /\
     h' !! p = Some (ODict d') /\ holds h' self d' /\
     d' !! "include" = Some (VRef r) /\
     h' !! r = Some (OList (items ++ [y]))).
Proof.
  intros Hd Hr.
  assert (Hne : r <> _params self) by (intros ->; unfold holds in Hd; congruence).
  split.
  - intros ->. rewrite (proj1 (include_shape self (VRef r) h)).
    by apply set_empty_list.
  - intros Hitems. destruct items as [|x xs]; [done|].
    eexists _, _, _. cbv beta iota zeta delta [mbind M_bind].
    rewrite (proj1 (include_shape self (VRef r) h)).
    rewrite (set_nonempty_list _ _ h self d Hd r x xs eq_refl Hr).
    unfold list_append. run. rewrite lookup_insert_ne by done. rewrite Hr. simpl.
    rewrite (build_run _ self (<["include" := VRef r]> d)).
    2: { unfold holds. rewrite lookup_insert_ne by done. apply lookup_insert_eq. }
    split; [reflexivity|]. split; [apply lookup_insert_eq|].
    match goal with |- holds (<[?p := _]> ?h2) _ _ /\ _ =>
      assert (Hp : forall l o, h2 !! l = Some o -> p <> l)
        by (intros l o Hl; by apply (fresh_ne h2 l o))
    end.
    split.
    { unfold holds. rewrite lookup_insert_ne.
      - rewrite lookup_insert_ne by done. apply lookup_insert_eq.
      - eapply Hp. rewrite lookup_insert_ne by done. apply lookup_insert_eq. }
    split; [apply lookup_insert_eq|].
    rewrite lookup_insert_ne; [apply lookup_insert_eq|].
    eapply Hp. apply lookup_insert_eq.
Qed.

Lemma include_stores_reference_witness :
  exists (p : loc) (h' : heap) (d' : gmap string value),
    (b ← include b0 (VRef 2); list_append 2 (VInt 9);; build b)
      (<[2%positive := OList [VInt 5]]> h0) = (Ok p, h') /\
    h' !! p = Some (ODict d') /\
    d' !! "include" = Some (VRef 2) /\
    h' !! 2%positive = Some (OList [VInt 5; VInt 9]).
Proof.
  assert (Hd : holds (<[2%positive := OList [VInt 5]]> h0) b0 ∅)
    by (vm_compute; reflexivity).
  assert (Hr : (<[2%positive := OList [VInt 5]]> h0 : heap) !! 2%positive
               = Some (OList [VInt 5])) by apply lookup_insert_eq.
  destruct (include_stores_reference (<[2%positive := OList [VInt 5]]> h0) b0 ∅
              2 [VInt 5] (VInt 9) Hd Hr) as [_ H].
  destruct (H ltac:(discriminate)) as (p & h' & d' & Hrun & Hp & _ & Hk & Hl).
  by exists p, h', d'.
Defined.

End BuilderSpec.
